(** * Greenhouse job scraper: model of [services/scrap/main.py]

    The development embeds the fetch, filter, normalize and commit pipeline
    of the [/sync-jobs] endpoint and proves properties of it.

    Conventions of the embedding.
    - A Python [str] is a [string]; its characters are read as the code
      points U+0000..U+00FF, on which [str.lower] and the [\w] class of [re]
      are given exactly.
    - A value decoded from JSON is a [pyval] (numbers are integers, as the
      Greenhouse payload has them).
    - A raised exception is the [Raise] branch of [pyres]; the statements of
      the endpoint are chained with [bind] in the order Python runs them.
    - The Firestore collection [jobs] is a [gmap] from document key to
      document; a write batch is the list of its [set] operations.
    - The API-key check of [get_api_key] runs before the body of the endpoint
      and is left out. *)

From Stdlib Require Import ZArith Ascii String List Bool Lia DecimalString DecimalPos DecimalZ.
From stdpp Require Import base option list strings gmap.
Import ListNotations.

(** ** Characters and strings *)

Module Text.

Definition code (c : ascii) : N := N_of_ascii c.

Definition between (lo hi : N) (c : ascii) : bool :=
  ((lo <=? code c) && (code c <=? hi))%N.

Definition is_ascii_upper (c : ascii) : bool := between 65 90 c.
Definition is_ascii_lower (c : ascii) : bool := between 97 122 c.
Definition is_ascii_alpha (c : ascii) : bool := is_ascii_upper c || is_ascii_lower c.

(** Characters that have a lower-case partner: A-Z and U+00C0..U+00DE
    without the multiplication sign U+00D7. *)
Definition has_lower (c : ascii) : bool :=
  is_ascii_upper c || (between 192 222 c && negb (code c =? 215)%N).

Definition lower_char (c : ascii) : ascii :=
  if has_lower c then ascii_of_N (code c + 32) else c.

Definition upper_char (c : ascii) : ascii :=
  if is_ascii_lower c then ascii_of_N (code c - 32) else c.

(** [str.lower()] *)
Fixpoint lower (s : string) : string :=
  match s with
  | EmptyString => EmptyString
  | String c r => String (lower_char c) (lower r)
  end.

(** The class [\w] of a [str] pattern: alphanumeric characters
    ([str.isalnum]) and the underscore. *)
Definition is_word (c : ascii) : bool :=
  between 48 57 c || is_ascii_alpha c || (code c =? 95)%N
  || (code c =? 170)%N || (code c =? 178)%N || (code c =? 179)%N
  || (code c =? 181)%N || (code c =? 185)%N || (code c =? 186)%N
  || between 188 190 c
  || between 192 214 c || between 216 246 c || between 248 255 c.

(** [str.title()]: a cased character is upper-cased after an uncased one
    (or at the start) and lower-cased after a cased one.  Cased characters
    are taken to be the ASCII letters: the function is only applied to the
    configured keywords. *)
Fixpoint title_from (prev_cased : bool) (s : string) : string :=
  match s with
  | EmptyString => EmptyString
  | String c r =>
      if is_ascii_alpha c
      then String (if prev_cased then lower_char c else upper_char c) (title_from true r)
      else String c (title_from false r)
  end.

Definition title (s : string) : string := title_from false s.

(** [str.capitalize()], on the same characters: first character upper-cased,
    the rest lower-cased. *)
Definition capitalize (s : string) : string :=
  match s with
  | EmptyString => EmptyString
  | String c r => String (upper_char c) (lower r)
  end.

(** [s.startswith(p)] *)
Fixpoint startswith (p s : string) : bool :=
  match p, s with
  | EmptyString, _ => true
  | String a p', String b s' => if Ascii.eqb a b then startswith p' s' else false
  | String _ _, EmptyString => false
  end.

(** [needle in hay] *)
Fixpoint contains (needle hay : string) : bool :=
  if startswith needle hay then true
  else match hay with
       | EmptyString => false
       | String _ r => contains needle r
       end.

(** The character before the end of [s], or [prev] when [s] is empty. *)
Fixpoint last_or (prev : option ascii) (s : string) : option ascii :=
  match s with
  | EmptyString => prev
  | String c r => last_or (Some c) r
  end.

Definition last_char (s : string) : option ascii := last_or None s.

Definition first_char (s : string) : option ascii :=
  match s with EmptyString => None | String c _ => Some c end.

End Text.

(** ** The fragment of [re] used by the scraper

    Both call sites build the pattern [\b<re.escape(kw)>\b] and run
    [re.search] on an already lower-cased text.  [re.escape] yields a pattern
    that matches its argument literally, character by character. *)

Module Re.
Import Text.

Inductive item : Type :=
  | Boundary            (* \b *)
  | Lit (c : ascii).    (* a literal (possibly escaped) character *)

Fixpoint re_escape (s : string) : list item :=
  match s with
  | EmptyString => []
  | String c r => Lit c :: re_escape r
  end.

(** rf'\b{re.escape(kw)}\b' *)
Definition word_pattern (kw : string) : list item :=
  Boundary :: re_escape kw ++ [Boundary].

Definition word_opt (o : option ascii) : bool :=
  match o with Some c => is_word c | None => false end.

(** [\b] holds between [prev] and [next] when exactly one of them is a word
    character; the outside of the text counts as a non-word character. *)
Definition at_boundary (prev next : option ascii) : bool :=
  xorb (word_opt prev) (word_opt next).

(** Matching a pattern at the current position: [prev] is the character
    before the position, [rest] the text from it. *)
Fixpoint match_here (p : list item) (prev : option ascii) (rest : string) : bool :=
  match p with
  | [] => true
  | Boundary :: p' =>
      if at_boundary prev (first_char rest) then match_here p' prev rest else false
  | Lit c :: p' =>
      match rest with
      | EmptyString => false
      | String d r => if Ascii.eqb c d then match_here p' (Some d) r else false
      end
  end.

(** [re.search]: the first position at which the pattern matches, scanning
    left to right. *)
Fixpoint search_from (p : list item) (prev : option ascii) (rest : string) : bool :=
  if match_here p prev rest then true
  else match rest with
       | EmptyString => false
       | String d r => search_from p (Some d) r
       end.

Definition search (p : list item) (text : string) : bool :=
  search_from p None text.

End Re.

Import Text Re.

(** ** Python values and exceptions *)

Module Py.
Import Text.

(** What [response.json()] can return.  A [PDict] lists the items of a dict
    in insertion order; its keys are distinct, as in any dict. *)
#[warnings="-register-all"] Inductive pyval : Type :=
  | PNone
  | PBool (b : bool)
  | PInt (z : Z)
  | PStr (s : string)
  | PList (l : list pyval)
  | PDict (items : list (string * pyval)).

(** The exceptions the endpoint can meet. *)
Inductive exn : Type :=
  | AttributeError     (* a method looked up on a value that lacks it *)
  | TypeError          (* iteration or [in] on a value that does not support it *)
  | RequestException   (* [requests.get] failed at transport level *)
  | JSONDecodeError    (* [response.json()] on a body that is not JSON *)
  | LibraryError       (* raised inside [html] or [bs4] *)
  | StoreError.        (* [batch.commit()] failed *)

Inductive pyres (A : Type) : Type :=
  | Ok (a : A)
  | Raise (e : exn).
Arguments Ok {A} a.
Arguments Raise {A} e.

Definition bind {A B} (m : pyres A) (k : A -> pyres B) : pyres B :=
  match m with
  | Ok a => k a
  | Raise e => Raise e
  end.

Notation "'try!' x ':=' m 'in' k" := (bind m (fun x => k))
  (at level 10, x name, m at level 100, k at level 200, only parsing).

(** Truth value of a decoded value ([if not raw_html]). *)
Definition truthy (v : pyval) : bool :=
  match v with
  | PNone => false
  | PBool b => b
  | PInt z => negb (z =? 0)%Z
  | PStr s => negb (String.eqb s "")
  | PList l => match l with [] => false | _ => true end
  | PDict d => match d with [] => false | _ => true end
  end.

Fixpoint assoc (k : string) (items : list (string * pyval)) : option pyval :=
  match items with
  | [] => None
  | (k', v) :: r => if String.eqb k k' then Some v else assoc k r
  end.

(** [v.get(k, default)]: only a dict has the method. *)
Definition get (v : pyval) (k : string) (dflt : pyval) : pyres pyval :=
  match v with
  | PDict items => Ok (default dflt (assoc k items))
  | _ => Raise AttributeError
  end.

(** [for x in v]: the elements of a list, the keys of a dict, the characters
    of a string; the other values are not iterable. *)
Definition iterate (v : pyval) : pyres (list pyval) :=
  match v with
  | PList l => Ok l
  | PDict items => Ok (map (fun kv => PStr (fst kv)) items)
  | PStr s => Ok (map (fun c => PStr (String c EmptyString)) (list_ascii_of_string s))
  | _ => Raise TypeError
  end.

(** *** [str()] and [repr()] *)

Definition hex_digit (n : N) : ascii :=
  if (n <? 10)%N then ascii_of_N (48 + n) else ascii_of_N (87 + n).

Definition dquote : ascii := ascii_of_nat 34.
Definition squote : ascii := ascii_of_nat 39.
Definition backslash : ascii := ascii_of_nat 92.

(** A character [repr] prints as it is: not a control character, not U+007F,
    not in U+0080..U+00A0 and not the soft hyphen U+00AD. *)
Definition printable (c : ascii) : bool :=
  negb ((code c <? 32)%N || (code c =? 127)%N || between 128 160 c || (code c =? 173)%N).

Definition repr_char (quote c : ascii) : string :=
  if Ascii.eqb c backslash then String backslash (String backslash EmptyString)
  else if Ascii.eqb c quote then String backslash (String quote EmptyString)
  else if (code c =? 9)%N then String backslash "t"
  else if (code c =? 10)%N then String backslash "n"
  else if (code c =? 13)%N then String backslash "r"
  else if printable c then String c EmptyString
  else String backslash
         (String "x" (String (hex_digit (code c / 16)) (String (hex_digit (code c mod 16)) EmptyString))).

Fixpoint repr_chars (quote : ascii) (s : string) : string :=
  match s with
  | EmptyString => EmptyString
  | String c r => repr_char quote c +:+ repr_chars quote r
  end.

(** [repr] of a [str]: single quotes, unless the text has a single quote and
    no double quote. *)
Definition repr_str (s : string) : string :=
  let quote :=
    if contains (String squote EmptyString) s && negb (contains (String dquote EmptyString) s)
    then dquote else squote in
  String quote (repr_chars quote s +:+ String quote EmptyString).

Definition str_int (z : Z) : string := NilZero.string_of_int (Z.to_int z).

Fixpoint join (sep : string) (l : list string) : string :=
  match l with
  | [] => EmptyString
  | [x] => x
  | x :: r => x +:+ sep +:+ join sep r
  end.

Fixpoint repr (v : pyval) : string :=
  match v with
  | PNone => "None"
  | PBool true => "True"
  | PBool false => "False"
  | PInt z => str_int z
  | PStr s => repr_str s
  | PList l => "[" +:+ join ", " (map repr l) +:+ "]"
  | PDict items =>
      "{" +:+ join ", " (map (fun kv => repr_str (fst kv) +:+ ": " +:+ repr (snd kv)) items) +:+ "}"
  end.

(** [str(v)]: a [str] is itself, anything else prints as its [repr]. *)
Definition str (v : pyval) : string :=
  match v with
  | PStr s => s
  | _ => repr v
  end.

End Py.

Import Py.

(** ** The scraper *)

Module Scraper.

(** *** Configuration *)

Definition TARGET_COMPANIES : list string := ["figma"; "discord"; "dropbox"; "duolingo"].

Definition TECH_KEYWORDS : list string :=
  ["software"; "developer"; "engineer"; "data"; "analytics"; "analyst";
   "machine learning"; "python"; "full stack"; "frontend"; "backend";
   "cloud"; "devops"; "security"; "it"; "artificial intelligence"; "ai"; "react"].

(** *** The job document written to the store *)

Record source_meta : Type := {
  sourceId : string;
  externalId : string
}.

Record normalized_fields : Type := {
  companyLower : string;
  titleLower : string
}.

Record document : Type := {
  title : string;
  company : string;
  location : pyval;
  jobType : string;
  applyUrl : pyval;
  jdText : string;
  tags : list string;
  source : string;
  sourceMeta : source_meta;
  visibility : string;
  instituteId : pyval;
  ownerUid : pyval;
  status : string;
  postedAt : pyval;
  lastSeenAt : string;
  createdAt : string;
  updatedAt : string;
  normalized : normalized_fields
}.

(** *** What the process gets from its libraries

    [html_text] stands for lines 40-45 of [clean_html_text] ([html.unescape],
    the [BeautifulSoup] parse, the removal of the three [div] classes and
    [get_text]) on an argument that passed the emptiness test.  [set_list l]
    is [list(set(l))]: the distinct elements of [l], in the order the hash
    table of the running interpreter yields them. *)
Record runtime : Type := {
  html_text : pyval -> pyres string;
  set_list : list string -> list string;
  set_list_NoDup : forall l, List.NoDup (set_list l);
  set_list_In : forall l x, In x (set_list l) <-> In x l
}.

(** *** What the cycle meets outside the process *)

Inductive reply : Type :=
  | Unreachable                                   (* [requests.get] raises *)
  | Response (status_code : Z) (body : option pyval).  (* [None]: the body is not JSON *)

Record world : Type := {
  now_iso : string;                                        (* the clock, read once *)
  http_get : string -> reply;                              (* by URL *)
  commit_error : list (string * document) -> option exn    (* does [batch.commit()] raise? *)
}.

(** *** Helper functions of the source *)

Section WithRuntime.
Context (rt : runtime).

Definition clean_html_text (raw_html : pyval) : pyres string :=
  if negb (truthy raw_html) then Ok "Not specified"
  else html_text rt raw_html.

(** The test both [extract_tags] and the title filter apply to a keyword. *)
Definition kw_search (text kw : string) : bool :=
  Re.search (word_pattern kw) text.

Definition extract_tags (title description : string) : list string :=
  let combined_text := Text.lower (title +:+ " " +:+ description) in
  let found_tags := map Text.title (List.filter (kw_search combined_text) TECH_KEYWORDS) in
  set_list rt found_tags.

(** *** The endpoint *)

(** The batch under construction and the counter of the endpoint. *)
Record cycle : Type := {
  batch : list (string * document);
  upload_count : nat
}.

(** The strict tech filter of line 77. *)
Definition title_is_tech (title_lower : string) : bool :=
  existsb (kw_search title_lower) TECH_KEYWORDS.

Definition external_id_of (job : pyval) : pyres string :=
  try! id := get job "id" PNone in
  let job_id := str id in
  Ok ("gh-" +:+ job_id).

(** Lines 80-104: the key and the document of a posting that passed the
    filter; [title] is known to be a [str] at this point. *)
Definition build_document (company now : string) (job : pyval) (title : string)
  : pyres (string * document) :=
  let title_lower := Text.lower title in
  try! external_id := external_id_of job in
  try! raw_html := get job "content" (PStr "") in
  try! clean_description := clean_html_text raw_html in
  try! loc := get job "location" (PDict []) in
  try! location_name := get loc "name" (PStr "Remote") in
  try! absolute_url := get job "absolute_url" PNone in
  try! updated_at := get job "updated_at" (PStr now) in
  Ok (external_id,
      {| title := title;
         company := capitalize company;
         location := location_name;
         jobType := if contains "intern" title_lower then "Internship" else "Full-time";
         applyUrl := absolute_url;
         jdText := clean_description;
         tags := extract_tags title clean_description;
         source := "scraped";
         sourceMeta := {| sourceId := "scrape_sources/greenhouse"; externalId := external_id |};
         visibility := "public";
         instituteId := PNone;
         ownerUid := PNone;
         status := "open";
         postedAt := updated_at;
         lastSeenAt := now;
         createdAt := now;
         updatedAt := now;
         normalized := {| companyLower := Text.lower company; titleLower := title_lower |} |}).

(** Lines 73-104: what the inner loop computes for one posting before it
    touches the batch: [None] when the filter says [continue], else the key
    and the document. *)
Definition normalize (company now : string) (job : pyval) : pyres (option (string * document)) :=
  try! title := get job "title" (PStr "") in
  match title with
  | PStr title =>
      let title_lower := Text.lower title in
      if negb (title_is_tech title_lower) then Ok None     (* continue *)
      else
        try! kd := build_document company now job title in
        Ok (Some kd)
  | _ => Raise AttributeError                             (* title.lower() *)
  end.

(** Lines 107-109: [batch.set(doc_ref, job_document)] and the counter. *)
Definition add_to_batch (st : cycle) (kd : string * document) : cycle :=
  {| batch := batch st ++ [kd]; upload_count := S (upload_count st) |}.

(** The body of the inner loop, lines 73-109. *)
Definition process_job (company now : string) (st : cycle) (job : pyval) : pyres cycle :=
  try! r := normalize company now job in
  match r with
  | None => Ok st
  | Some kd => Ok (add_to_batch st kd)
  end.

(** A [for] loop whose body may raise. *)
Fixpoint for_each {A S : Type} (body : S -> A -> pyres S) (l : list A) (s : S) : pyres S :=
  match l with
  | [] => Ok s
  | x :: r => try! s' := body s x in for_each body r s'
  end.

Definition board_url (company : string) : string :=
  "https://boards-api.greenhouse.io/v1/boards/" +:+ company +:+ "/jobs?content=true".

(** The body of the outer loop, lines 68-109. *)
Definition process_source (w : world) (st : cycle) (company : string) : pyres cycle :=
  match http_get w (board_url company) with
  | Unreachable => Raise RequestException
  | Response status_code body =>
      if (status_code =? 200)%Z then
        try! payload := match body with Some v => Ok v | None => Raise JSONDecodeError end in
        try! jobs := get payload "jobs" (PList []) in
        try! jobs := iterate jobs in
        for_each (process_job company (now_iso w)) jobs st
      else Ok st
  end.

(** Lines 61-109: everything before the commit. *)
Definition stage (w : world) (sources : list string) : pyres cycle :=
  for_each (process_source w) sources {| batch := []; upload_count := 0 |}.

(** The JSON body of a successful call. *)
Record sync_response : Type := {
  r_status : string;
  r_message : string;
  synced_count : nat
}.

Inductive cycle_result : Type :=
  | Succeeded (r : sync_response)
  | Failed (status_code : Z) (cause : exn).   (* HTTPException(500, str(e)) *)

Definition success (n : nat) : sync_response :=
  {| r_status := "success";
     r_message := "Successfully scraped and pushed " +:+ str_int (Z.of_nat n)
                  +:+ " jobs to Firebase Firestore in one batch!";
     synced_count := n |}.

(** An all-or-nothing [commit]: the [set] operations of the batch applied in
    order, each one creating or overwriting the document under its key. *)
Definition apply_batch (b : list (string * document)) (db : gmap string document)
  : gmap string document :=
  foldl (fun m kd => <[fst kd := snd kd]> m) db b.

(** What one call of the endpoint leaves behind: the answer, the store, and
    the batches on which [commit] was called. *)
Record outcome : Type := {
  result : cycle_result;
  store : gmap string document;
  commits : list (list (string * document))
}.

Definition run (w : world) (sources : list string) (db : gmap string document) : outcome :=
  match stage w sources with
  | Raise e => {| result := Failed 500 e; store := db; commits := [] |}
  | Ok st =>
      if (0 <? upload_count st)%nat then
        match commit_error w (batch st) with
        | Some e => {| result := Failed 500 e; store := db; commits := [batch st] |}
        | None => {| result := Succeeded (success (upload_count st));
                     store := apply_batch (batch st) db;
                     commits := [batch st] |}
        end
      else {| result := Succeeded (success (upload_count st)); store := db; commits := [] |}
  end.

Definition sync_scraped_jobs_to_firebase (w : world) (db : gmap string document) : outcome :=
  run w TARGET_COMPANIES db.

End WithRuntime.

End Scraper.

Import Scraper.

(** ** A runtime and some postings to run the model on *)

(** [list(set(l))] in first-occurrence order, and an [html_text] that returns
    a [str] as it is, which is what the parser does on text without markup,
    entities or blanks at its ends. *)
Definition sample_runtime : runtime :=
  {| html_text := fun v => match v with PStr s => Ok s | _ => Raise TypeError end;
     set_list := nodup string_dec;
     set_list_NoDup := NoDup_nodup string_dec;
     set_list_In := fun l x => nodup_In string_dec l x |}.

Definition posting (id : Z) (title : string) : pyval :=
  PDict [("id", PInt id); ("title", PStr title);
         ("absolute_url", PStr "https://boards.greenhouse.io/x/jobs/1")].

Definition board (jobs : list pyval) : reply :=
  Response 200 (Some (PDict [("jobs", PList jobs)])).

Definition sample_now : string := "2026-01-01T00:00:00+00:00".

(** ** Worlds to run the endpoint in *)

Definition serving (boards : list (string * reply)) (other : reply) (url : string) : reply :=
  match List.find (fun cr => String.eqb url (board_url (fst cr))) boards with
  | Some cr => snd cr
  | None => other
  end.

(** Figma cannot be reached; Discord serves one tech posting; the other two
    boards are empty. *)
Definition figma_unreachable : world :=
  {| now_iso := sample_now;
     http_get := serving [("figma", Unreachable);
                          ("discord", board [posting 77 "Backend Engineer"])] (board []);
     commit_error := fun _ => None |}.

(** The same with Figma answering 503. *)
Definition figma_503 : world :=
  {| now_iso := sample_now;
     http_get := serving [("figma", Response 503 None);
                          ("discord", board [posting 77 "Backend Engineer"])] (board []);
     commit_error := fun _ => None |}.

(** Figma serves three tech postings, the second with a [null] location;
    the other boards are empty. *)
Definition second_of_three_breaks : world :=
  {| now_iso := sample_now;
     http_get := serving
       [("figma", board [posting 1 "Software Engineer";
                         PDict [("id", PInt 2); ("title", PStr "Data Analyst"); ("location", PNone)];
                         posting 3 "Backend Engineer"])] (board []);
     commit_error := fun _ => None |}.

(** No board has a tech posting. *)
Definition nothing_relevant : world :=
  {| now_iso := sample_now;
     http_get := serving [("figma", board [posting 5 "Office Manager"])] (board []);
     commit_error := fun _ => None |}.

(** Two sources configured: one serves two tech postings and one that is
    not, the other answers 503.  One commit, of two documents. *)
Definition two_sources : world :=
  {| now_iso := sample_now;
     http_get := serving
       [("figma", board [posting 1 "Software Engineer"; posting 2 "Office Manager";
                         posting 3 "Data Analyst"]);
        ("discord", Response 503 None)] (board []);
     commit_error := fun _ => None |}.

(** A posting whose title is out of scope and whose other fields would make
    the normalization raise: it is skipped all the same. *)
Definition office_manager : pyval :=
  PDict [("id", PInt 9); ("title", PStr "Office Manager");
         ("content", PInt 7); ("location", PNone)].

(** ** Notions the statements use *)

(** [kw] occurs in [text] with no word character right before it and none
    right after it. *)
Definition occurs_as_word (kw text : string) : Prop :=
  exists pre post,
    text = pre +:+ kw +:+ post
    /\ word_opt (last_char pre) = false
    /\ word_opt (first_char post) = false.

(** The same for a text that was not lower-cased: some stretch of [text]
    whose lower-case form is [kw] stands between non-word characters. *)
Definition occurs_as_word_ci (kw text : string) : Prop :=
  exists pre w post,
    text = pre +:+ w +:+ post
    /\ lower w = kw
    /\ word_opt (last_char pre) = false
    /\ word_opt (first_char post) = false.

(** A keyword that starts and ends with a word character. *)
Definition word_ended (kw : string) : bool :=
  word_opt (first_char kw) && word_opt (last_char kw).

(** Every case-insensitive occurrence of [kw] in [text] touches a word
    character: [kw] is only found inside larger words, if at all. *)
Definition only_inside_words (kw text : string) : Prop :=
  forall pre w post,
    text = pre +:+ w +:+ post -> lower w = kw ->
    word_opt (last_char pre) = true \/ word_opt (first_char post) = true.

(** The counter agrees with the batch. *)
Definition counted (st : cycle) : Prop := upload_count st = length (batch st).

(** ** The guard of the endpoint *)

(** [os.getenv("SCRAPER_API_KEY", "my-development-secret-key-123")]; [env] is
    the value of the variable, if it is set. *)
Definition API_KEY (env : option string) : string :=
  default "my-development-secret-key-123" env.

Inductive http_exception : Type :=
  | HTTPException (status_code : Z) (detail : string).

(** [api_key] is the value of the [x-api-key] header; with
    [auto_error=False] a request without the header gives [None]. *)
Definition get_api_key (key : string) (api_key : option string) : http_exception + string :=
  match api_key with
  | Some k =>
      if String.eqb k key then inr k
      else inl (HTTPException 403 "Invalid or missing API Key")
  | None => inl (HTTPException 403 "Invalid or missing API Key")
  end.

Inductive endpoint_answer : Type :=
  | Refused (e : http_exception)
  | Answered (r : cycle_result).

(** [APIKeyHeader(name="x-api-key", auto_error=False)]: what the dependency
    gets for a request whose [x-api-key] header is [header].  A header that
    is missing or empty gives [None]. *)
Definition api_key_header (header : option string) : option string :=
  match header with
  | Some EmptyString => None
  | Some k => Some k
  | None => None
  end.

(** [GET /sync-jobs]: the dependency [get_api_key] is resolved first, and the
    body runs only when it returns. *)
Definition sync_jobs (rt : runtime) (env header : option string) (w : world)
    (db : gmap string document)
  : endpoint_answer * gmap string document * list (list (string * document)) :=
  match get_api_key (API_KEY env) (api_key_header header) with
  | inl e => (Refused e, db, [])
  | inr _ =>
      let o := sync_scraped_jobs_to_firebase rt w db in
      (Answered (result o), store o, commits o)
  end.

(** ** More notions the statements use *)

(** The board of [company] answers 200 with a payload whose [jobs] the loop
    iterates over, and [job] is one of them. *)
Definition serves (w : world) (company : string) (job : pyval) : Prop :=
  exists payload jobsv jobs,
    http_get w (board_url company) = Response 200 (Some payload)
    /\ get payload "jobs" (PList []) = Ok jobsv
    /\ iterate jobsv = Ok jobs
    /\ In job jobs.

(** The batch of [st'] is the batch of [st] with more [set] operations at its
    end. *)
Definition grows (st st' : cycle) : Prop :=
  exists more, batch st' = batch st ++ more.

(** [d] with another list of tags. *)
Definition with_tags (d : document) (ts : list string) : document :=
  {| title := title d; company := company d; location := location d;
     jobType := jobType d; applyUrl := applyUrl d; jdText := jdText d;
     tags := ts;
     source := source d; sourceMeta := sourceMeta d; visibility := visibility d;
     instituteId := instituteId d; ownerUid := ownerUid d; status := status d;
     postedAt := postedAt d; lastSeenAt := lastSeenAt d; createdAt := createdAt d;
     updatedAt := updatedAt d; normalized := normalized d |}.

(** Two documents that agree on every field but the order of their tags. *)
Definition same_up_to_tag_order (d1 d2 : document) : Prop :=
  d1 = with_tags d2 (tags d1) /\ tags d1 ≡ₚ tags d2.

Definition same_entry (kd1 kd2 : string * document) : Prop :=
  fst kd1 = fst kd2 /\ same_up_to_tag_order (snd kd1) (snd kd2).

(** Two cycle states with the same counter whose batches hold, operation by
    operation, the same keys and the same documents up to tag order. *)
Definition same_cycle (st1 st2 : cycle) : Prop :=
  Forall2 same_entry (batch st1) (batch st2) /\ upload_count st1 = upload_count st2.

(** Two results that raise the same exception or return related values. *)
Definition same_result {A B : Type} (R : A -> B -> Prop) (r1 : pyres A) (r2 : pyres B) : Prop :=
  match r1, r2 with
  | Ok a, Ok b => R a b
  | Raise e1, Raise e2 => e1 = e2
  | _, _ => False
  end.

Definition same_option {A B : Type} (R : A -> B -> Prop) (o1 : option A) (o2 : option B) : Prop :=
  match o1, o2 with
  | Some a, Some b => R a b
  | None, None => True
  | _, _ => False
  end.

(** The libraries of [sample_runtime] in an interpreter whose sets come out
    in the opposite order. *)
Definition reversed_runtime : runtime :=
  {| html_text := html_text sample_runtime;
     set_list := fun l => rev (nodup string_dec l);
     set_list_NoDup := fun l => List.NoDup_rev (NoDup_nodup string_dec l);
     set_list_In := fun l x =>
       iff_trans (iff_sym (in_rev (nodup string_dec l) x)) (nodup_In string_dec l x) |}.

(** The cycle state [st] carried over to a loop that had already reached
    [st0]. *)
Definition after (st0 st : cycle) : cycle :=
  {| batch := batch st0 ++ batch st; upload_count := upload_count st0 + upload_count st |}.

(** [s] without its prefix [p], when it has it. *)
Fixpoint strip_prefix (p s : string) : option string :=
  match p, s with
  | EmptyString, _ => Some s
  | String a p', String b s' => if Ascii.eqb a b then strip_prefix p' s' else None
  | String _ _, EmptyString => None
  end.

(** Some non-empty end of [kw] starts [s] and is followed there by no word
    character: an occurrence of [kw] could run from the text before [s] into
    [s] and end at a word boundary. *)
Fixpoint ends_into (kw s : string) : bool :=
  match kw with
  | EmptyString => false
  | String _ r =>
      match strip_prefix kw s with
      | Some post => negb (word_opt (first_char post))
      | None => false
      end || ends_into r s
  end.

(** Figma and Discord both serve a posting with the upstream id 123. *)
Definition same_id_twice : world :=
  {| now_iso := sample_now;
     http_get := serving [("figma", board [posting 123 "Software Engineer"]);
                          ("discord", board [posting 123 "Data Analyst"])] (board []);
     commit_error := fun _ => None |}.

(** Figma answers 200 with an object that has no [jobs] key; the other
    boards serve one tech posting. *)
Definition figma_without_jobs : world :=
  {| now_iso := sample_now;
     http_get := serving [("figma", Response 200 (Some (PDict [("meta", PNone)])))]
                   (board [posting 8 "Python Developer"]);
     commit_error := fun _ => None |}.

(** Every board answers 503. *)
Definition all_down : world :=
  {| now_iso := sample_now;
     http_get := fun _ => Response 503 None;
     commit_error := fun _ => None |}.

(** A store with one document that did not come from the scraper. *)
Definition manual_store : gmap string document :=
  {[ "manual-1" :=
       {| title := "Campus Ambassador"; company := "Acme"; location := PStr "Pune";
          jobType := "Internship"; applyUrl := PNone; jdText := "Spread the word";
          tags := []; source := "manual";
          sourceMeta := {| sourceId := "manual"; externalId := "manual-1" |};
          visibility := "public"; instituteId := PNone; ownerUid := PNone;
          status := "open"; postedAt := PStr "2025-12-01"; lastSeenAt := "2025-12-01";
          createdAt := "2025-12-01"; updatedAt := "2025-12-01";
          normalized := {| companyLower := "acme"; titleLower := "campus ambassador" |} |} ]}.

(** ** The model at work *)

Example lower_mixed : lower "Senior ML Engineer (C++)" = "senior ml engineer (c++)".
Proof. reflexivity. Qed.

Example title_two_words : Text.title "machine learning" = "Machine Learning".
Proof. reflexivity. Qed.

Example ai_not_in_maintain : search (word_pattern "ai") "we maintain systems" = false.
Proof. reflexivity. Qed.

Example ai_as_word : search (word_pattern "ai") "applied ai, robotics" = true.
Proof. reflexivity. Qed.

Example str_of_id : str (PInt 4012345) = "4012345".
Proof. reflexivity. Qed.

Example str_of_missing_id : str PNone = "None".
Proof. reflexivity. Qed.

Example str_of_list : str (PList [PInt (-1); PStr "a'b"; PNone]) = "[-1, " +:+ String dquote ("a'b" +:+ String dquote ", None]").
Proof. reflexivity. Qed.

(** ** Facts about strings *)

#[local] Arguments String.append !_ _ / : simpl nomatch.

Section StringFacts.

Lemma append_nil_r (s : string) : s +:+ "" = s.
Proof. induction s as [|c s IH]; simpl; [reflexivity | now rewrite IH]. Qed.

Lemma append_assoc (a b c : string) : (a +:+ b) +:+ c = a +:+ b +:+ c.
Proof. induction a as [|x a IH]; simpl; [reflexivity | now rewrite IH]. Qed.

Lemma append_inv_head (a b c : string) : a +:+ b = a +:+ c -> b = c.
Proof. induction a as [|x a IH]; simpl; intros H; [exact H | injection H as H; auto]. Qed.

Lemma last_or_append (prev : option ascii) (a b : string) :
  last_or prev (a +:+ b) = last_or (last_or prev a) b.
Proof. revert prev; induction a as [|x a IH]; intros prev; simpl; [reflexivity | apply IH]. Qed.

Lemma lower_append (a b : string) : lower (a +:+ b) = lower a +:+ lower b.
Proof. induction a as [|x a IH]; simpl; [reflexivity | now rewrite IH]. Qed.

(** A split of [lower s] comes from a split of [s]. *)
Lemma lower_split (s a b : string) :
  lower s = a +:+ b -> exists s1 s2, s = s1 +:+ s2 /\ lower s1 = a /\ lower s2 = b.
Proof.
  revert a; induction s as [|x s IH]; intros a H.
  - destruct a; [|discriminate]. simpl in H. exists "", "". now rewrite <- H.
  - destruct a as [|y a].
    + exists "", (String x s). auto.
    + simpl in H. injection H as Hy Hs.
      destruct (IH _ Hs) as (s1 & s2 & -> & <- & <-).
      exists (String x s1), s2. simpl. now rewrite Hy.
Qed.

Lemma is_word_lower_char (c : ascii) : is_word (lower_char c) = is_word c.
Proof. destruct c as [[] [] [] [] [] [] [] []]; reflexivity. Qed.

Lemma word_opt_last_lower (prev : option ascii) (s : string) :
  word_opt (last_or (option_map lower_char prev) (lower s)) = word_opt (last_or prev s).
Proof.
  revert prev; induction s as [|x s IH]; intros prev; simpl.
  - destruct prev; simpl; [apply is_word_lower_char | reflexivity].
  - apply (IH (Some x)).
Qed.

Lemma word_opt_last_char_lower (s : string) :
  word_opt (last_char (lower s)) = word_opt (last_char s).
Proof. exact (word_opt_last_lower None s). Qed.

Lemma word_opt_first_lower (s : string) :
  word_opt (first_char (lower s)) = word_opt (first_char s).
Proof. destruct s; simpl; [reflexivity | apply is_word_lower_char]. Qed.

Lemma startswith_spec (p s : string) :
  startswith p s = true <-> exists post, s = p +:+ post.
Proof.
  revert s; induction p as [|a p IH]; intros s; simpl.
  - split; [intros _; now exists s | reflexivity].
  - destruct s as [|b s].
    + split; [discriminate | intros [post H]; discriminate].
    + destruct (Ascii.eqb_spec a b) as [->|Hne].
      * rewrite IH. split; intros [post H]; exists post; [now rewrite H | now injection H].
      * split; [discriminate | intros [post H]; simpl in H; congruence].
Qed.

(** [needle in hay] is the existence of an occurrence. *)
Lemma contains_spec (needle hay : string) :
  contains needle hay = true <-> exists pre post, hay = pre +:+ needle +:+ post.
Proof.
  induction hay as [|c hay IH]; simpl.
  - destruct (startswith needle "") eqn:E.
    + apply startswith_spec in E as [post E]. split; [intros _|reflexivity].
      exists "", post. exact E.
    + split; [discriminate|]. intros (pre & post & H).
      destruct pre; [|discriminate]. simpl in H.
      assert (startswith needle "" = true) by (apply startswith_spec; eauto). congruence.
  - destruct (startswith needle (String c hay)) eqn:E.
    + apply startswith_spec in E as [post E]. split; [intros _|reflexivity].
      exists "", post. exact E.
    + rewrite IH. split.
      * intros (pre & post & ->). now exists (String c pre), post.
      * intros (pre & post & H). destruct pre as [|x pre].
        -- simpl in H.
           assert (startswith needle (String c hay) = true) by (apply startswith_spec; eauto).
           congruence.
        -- injection H as _ H. eauto.
Qed.

End StringFacts.

(** ** What the word pattern matches *)

Section WordPattern.

Lemma match_here_literal (kw : string) (p : list item) (prev : option ascii) (rest : string) :
  match_here (re_escape kw ++ p) prev rest = true
  <-> exists post, rest = kw +:+ post /\ match_here p (last_or prev kw) post = true.
Proof.
  revert prev rest; induction kw as [|c kw IH]; intros prev rest.
  - simpl. split; [intros H; now exists rest | now intros (post & -> & H)].
  - change (re_escape (String c kw) ++ p) with (Lit c :: (re_escape kw ++ p)).
    cbn [match_here]. destruct rest as [|d rest].
    + split; [discriminate | intros (post & H & _); discriminate].
    + destruct (Ascii.eqb_spec c d) as [->|Hne].
      * rewrite IH. split.
        -- intros (post & -> & H). now exists post.
        -- intros (post & H & Hm). simpl in H. injection H as ->. now exists post.
      * split; [discriminate | intros (post & H & _); simpl in H; congruence].
Qed.

Lemma search_from_spec (p : list item) (prev : option ascii) (rest : string) :
  search_from p prev rest = true
  <-> exists pre post, rest = pre +:+ post /\ match_here p (last_or prev pre) post = true.
Proof.
  revert prev; induction rest as [|d rest IH]; intros prev; cbn [search_from].
  - destruct (match_here p prev "") eqn:E.
    + split; [intros _ | reflexivity]. now exists "", "".
    + split; [discriminate|]. intros (pre & post & H & Hm).
      destruct pre; [|discriminate]. simpl in H, Hm. subst post. congruence.
  - destruct (match_here p prev (String d rest)) eqn:E.
    + split; [intros _ | reflexivity]. now exists "", (String d rest).
    + rewrite IH. split.
      * intros (pre & post & -> & Hm). now exists (String d pre), post.
      * intros (pre & post & H & Hm). destruct pre as [|x pre].
        -- simpl in H, Hm. subst post. congruence.
        -- simpl in H. injection H as -> ->. now exists pre, post.
Qed.

Lemma word_pattern_here (kw : string) (prev : option ascii) (rest : string) :
  match_here (word_pattern kw) prev rest = true
  <-> at_boundary prev (first_char rest) = true
      /\ exists post, rest = kw +:+ post
                      /\ at_boundary (last_or prev kw) (first_char post) = true.
Proof.
  unfold word_pattern. cbn [match_here].
  destruct (at_boundary prev (first_char rest)).
  - rewrite match_here_literal. cbn [match_here]. split.
    + intros (post & -> & H). split; [reflexivity|]. exists post. split; [reflexivity|].
      now destruct (at_boundary (last_or prev kw) (first_char post)).
    + intros (_ & post & -> & H). exists post. now rewrite H.
  - split; [discriminate | now intros [? _]].
Qed.

(** For a keyword that starts and ends with a word character, [re.search]
    with the word pattern finds exactly the occurrences between non-word
    characters. *)
Lemma search_word_pattern (kw text : string) :
  word_ended kw = true ->
  Re.search (word_pattern kw) text = true <-> occurs_as_word kw text.
Proof.
  intros Hkw. unfold word_ended in Hkw. apply andb_true_iff in Hkw as [Hf Hl].
  destruct kw as [|c kw]; [discriminate|]. simpl in Hf.
  unfold Re.search, occurs_as_word. rewrite search_from_spec.
  assert (Hlast : forall prev, word_opt (last_or prev (String c kw)) = true)
    by (intros prev; exact Hl).
  split.
  - intros (pre & rest & -> & Hm). apply word_pattern_here in Hm as (Hb & post & -> & He).
    exists pre, post. split; [reflexivity|].
    unfold at_boundary in Hb, He. rewrite Hlast in He. simpl in Hb. rewrite Hf in Hb.
    unfold last_char. split.
    + now destruct (word_opt (last_or None pre)).
    + now destruct (word_opt (first_char post)).
  - intros (pre & post & -> & Hp & Hq). exists pre, (String c kw +:+ post).
    split; [reflexivity|]. apply word_pattern_here. unfold last_char in Hp.
    unfold at_boundary. split.
    + simpl. now rewrite Hp, Hf.
    + exists post. split; [reflexivity|]. now rewrite Hlast, Hq.
Qed.

(** Occurrences in the lower-cased text are the case-insensitive occurrences
    in the text. *)
Lemma occurs_lower_ci (kw text : string) :
  occurs_as_word kw (lower text) <-> occurs_as_word_ci kw text.
Proof.
  unfold occurs_as_word, occurs_as_word_ci. split.
  - intros (pre' & post' & H & Hp & Hq).
    apply lower_split in H as (pre & rest & -> & <- & H).
    apply lower_split in H as (w & post & -> & <- & <-).
    exists pre, w, post. split; [reflexivity|]. split; [reflexivity|].
    rewrite <- word_opt_last_char_lower, <- word_opt_first_lower. now split.
  - intros (pre & w & post & -> & <- & Hp & Hq).
    exists (lower pre), (lower post). rewrite !lower_append. split; [reflexivity|].
    rewrite word_opt_last_char_lower, word_opt_first_lower. now split.
Qed.

Lemma keywords_word_ended : forallb word_ended TECH_KEYWORDS = true.
Proof. reflexivity. Qed.

Lemma keyword_word_ended (kw : string) : In kw TECH_KEYWORDS -> word_ended kw = true.
Proof. intros H. exact (proj1 (forallb_forall _ _) keywords_word_ended kw H). Qed.

Lemma kw_search_spec (text kw : string) :
  In kw TECH_KEYWORDS -> kw_search text kw = true <-> occurs_as_word kw text.
Proof. intros H. apply search_word_pattern, keyword_word_ended, H. Qed.

End WordPattern.

(** ** Tag extraction *)

Section Tags.
Context (rt : runtime).

Lemma title_injective_on_keywords (k k' : string) :
  In k TECH_KEYWORDS -> In k' TECH_KEYWORDS -> Text.title k = Text.title k' -> k = k'.
Proof.
  assert (H : forallb (fun a => forallb (fun b =>
              implb (String.eqb (Text.title a) (Text.title b)) (String.eqb a b))
              TECH_KEYWORDS) TECH_KEYWORDS = true) by (vm_compute; reflexivity).
  intros Hk Hk' E. rewrite forallb_forall in H. specialize (H k Hk).
  rewrite forallb_forall in H. specialize (H k' Hk').
  apply String.eqb_eq in E. rewrite E in H. now apply String.eqb_eq.
Qed.

Lemma extract_tags_In (title description kw : string) :
  In kw TECH_KEYWORDS ->
  In (Text.title kw) (extract_tags rt title description)
  <-> kw_search (lower (title +:+ " " +:+ description)) kw = true.
Proof.
  intros Hkw. unfold extract_tags. rewrite set_list_In, in_map_iff. split.
  - intros (k' & E & Hin). apply filter_In in Hin as [Hin Hs].
    now rewrite <- (title_injective_on_keywords k' kw Hin Hkw E).
  - intros Hs. exists kw. split; [reflexivity|]. now apply filter_In.
Qed.

Lemma occurs_in_description (kw title T : string) :
  occurs_as_word_ci kw T -> occurs_as_word_ci kw (title +:+ " " +:+ T).
Proof.
  intros (pre & w & post & -> & Hw & Hp & Hq).
  exists (title +:+ " " +:+ pre), w, post.
  rewrite !append_assoc. repeat split; try assumption.
  unfold last_char in *. rewrite last_or_append. simpl.
  destruct pre; [reflexivity | exact Hp].
Qed.

Lemma occurs_in_title (kw title T : string) :
  occurs_as_word_ci kw title -> occurs_as_word_ci kw (title +:+ " " +:+ T).
Proof.
  intros (pre & w & post & -> & Hw & Hp & Hq).
  exists pre, w, (post +:+ " " +:+ T).
  rewrite !append_assoc. repeat split; try assumption.
  destruct post; [reflexivity | exact Hq].
Qed.

Lemma only_inside_words_iff (kw text : string) :
  only_inside_words kw text <-> ~ occurs_as_word_ci kw text.
Proof.
  unfold only_inside_words, occurs_as_word_ci. split.
  - intros H (pre & w & post & E & Hw & Hp & Hq).
    destruct (H pre w post E Hw); congruence.
  - intros H pre w post E Hw.
    destruct (word_opt (last_char pre)) eqn:Hp; [now left|].
    destruct (word_opt (first_char post)) eqn:Hq; [now right|].
    exfalso. apply H. now exists pre, w, post.
Qed.

End Tags.

(** C4. For a keyword [kw] of the vocabulary, [extract_tags title T] holds the
    title-cased [kw] exactly when [kw] occurs, case-insensitively and between
    non-word characters, in [title], a space and [T]; so it holds it when [kw]
    occurs so in [T] or in [title], and does not when [kw] is only found
    inside larger words of that text.  The tags have no duplicates. *)
Theorem extract_tags_whole_word (rt : runtime) (title T kw : string) :
  In kw TECH_KEYWORDS ->
  (In (Text.title kw) (extract_tags rt title T)
     <-> occurs_as_word_ci kw (title +:+ " " +:+ T))
  /\ (occurs_as_word_ci kw T -> In (Text.title kw) (extract_tags rt title T))
  /\ (occurs_as_word_ci kw title -> In (Text.title kw) (extract_tags rt title T))
  /\ (only_inside_words kw (title +:+ " " +:+ T)
        -> ~ In (Text.title kw) (extract_tags rt title T))
  /\ List.NoDup (extract_tags rt title T).
Proof.
  intros Hkw.
  assert (Hiff : In (Text.title kw) (extract_tags rt title T)
                 <-> occurs_as_word_ci kw (title +:+ " " +:+ T)).
  { rewrite (extract_tags_In rt title T kw Hkw), (kw_search_spec _ kw Hkw).
    apply occurs_lower_ci. }
  split; [exact Hiff|]. split; [|split; [|split]].
  - intros H. apply Hiff, occurs_in_description, H.
  - intros H. apply Hiff, occurs_in_title, H.
  - intros H Hin. apply only_inside_words_iff in H. apply H, Hiff, Hin.
  - apply set_list_NoDup.
Qed.

Lemma extract_tags_whole_word_witness :
  In "ai" TECH_KEYWORDS
  /\ (In "Ai" (extract_tags sample_runtime "Applied AI Engineer" "We maintain models")
      <-> occurs_as_word_ci "ai" ("Applied AI Engineer" +:+ " " +:+ "We maintain models")).
Proof.
  assert (H : In "ai" TECH_KEYWORDS) by (simpl; tauto).
  split; [exact H|].
  exact (proj1 (extract_tags_whole_word sample_runtime
                  "Applied AI Engineer" "We maintain models" "ai" H)).
Defined.

Example tags_of_posting :
  extract_tags sample_runtime "Applied AI Engineer" "We maintain models with Python."
  = ["Engineer"; "Python"; "Ai"].
Proof. reflexivity. Qed.

(** ** The title filter *)

Lemma title_is_tech_spec (title_lower : string) :
  title_is_tech title_lower = true
  <-> exists kw, In kw TECH_KEYWORDS /\ occurs_as_word kw title_lower.
Proof.
  unfold title_is_tech. rewrite existsb_exists. split.
  - intros (kw & Hin & Hs). exists kw. split; [exact Hin|]. now apply kw_search_spec.
  - intros (kw & Hin & Ho). exists kw. split; [exact Hin|]. now apply kw_search_spec.
Qed.

Lemma normalize_title (rt : runtime) (company now : string) (job : pyval) (t : string) :
  get job "title" (PStr "") = Ok (PStr t) ->
  normalize rt company now job
  = if title_is_tech (lower t) then bind (build_document rt company now job t) (fun kd => Ok (Some kd))
    else Ok None.
Proof. intros H. unfold normalize. rewrite H. simpl. now destruct (title_is_tech (lower t)). Qed.

(** C5. For a posting whose title is the text [t]: the filter accepts it
    exactly when some keyword of the vocabulary occurs in the lower-cased [t]
    between non-word characters; a posting that fails the test leaves the
    batch and the counter as they were, whatever its other fields hold (the
    description included), and nothing of the normalization is run for it; a
    posting that passes is handed to the normalization. *)
Theorem relevance_filter (rt : runtime) (company now : string) (st : cycle)
    (job : pyval) (t : string) :
  get job "title" (PStr "") = Ok (PStr t) ->
  (title_is_tech (lower t) = true
     <-> exists kw, In kw TECH_KEYWORDS /\ occurs_as_word kw (lower t))
  /\ (title_is_tech (lower t) = false ->
        normalize rt company now job = Ok None
        /\ process_job rt company now st job = Ok st)
  /\ (title_is_tech (lower t) = true ->
        normalize rt company now job
        = bind (build_document rt company now job t) (fun kd => Ok (Some kd))).
Proof.
  intros Ht. split; [apply title_is_tech_spec|]. split; intros Hf.
  - assert (Hn : normalize rt company now job = Ok None)
      by (rewrite (normalize_title _ _ _ _ _ Ht), Hf; reflexivity).
    split; [exact Hn|]. unfold process_job. now rewrite Hn.
  - now rewrite (normalize_title _ _ _ _ _ Ht), Hf.
Qed.

Lemma relevance_filter_witness :
  get office_manager "title" (PStr "") = Ok (PStr "Office Manager")
  /\ (title_is_tech (lower "Office Manager") = false ->
        normalize sample_runtime "figma" "2026-01-01T00:00:00+00:00" office_manager = Ok None
        /\ process_job sample_runtime "figma" "2026-01-01T00:00:00+00:00"
             {| batch := []; upload_count := 0 |} office_manager
           = Ok {| batch := []; upload_count := 0 |}).
Proof.
  split; [reflexivity|].
  exact (proj1 (proj2 (relevance_filter sample_runtime "figma" "2026-01-01T00:00:00+00:00"
                         {| batch := []; upload_count := 0 |} office_manager
                         "Office Manager" eq_refl))).
Defined.

Example senior_software_engineer_is_tech :
  title_is_tech (lower "Senior Software Engineer") = true.
Proof. reflexivity. Qed.

Example office_manager_is_not_tech : title_is_tech (lower "Office Manager") = false.
Proof. reflexivity. Qed.

(** The filter does not look at the description: a keyword there does not
    rescue a title that has none. *)
Example description_does_not_rescue :
  normalize sample_runtime "figma" "2026-01-01T00:00:00+00:00"
    (PDict [("id", PInt 9); ("title", PStr "Office Manager");
            ("content", PStr "Python and machine learning every day")])
  = Ok None.
Proof. reflexivity. Qed.

(** ** Normalization of one posting *)

Section Normalization.
Context (rt : runtime).

(** What a document that was built says about the posting it came from. *)
Lemma normalize_inv (company now : string) (job : pyval) (key : string) (d : document) :
  normalize rt company now job = Ok (Some (key, d)) ->
  exists items t desc loc_name,
    job = PDict items
    /\ default (PStr "") (assoc "title" items) = PStr t
    /\ title_is_tech (lower t) = true
    /\ clean_html_text rt (default (PStr "") (assoc "content" items)) = Ok desc
    /\ get (default (PDict []) (assoc "location" items)) "name" (PStr "Remote") = Ok loc_name
    /\ key = "gh-" +:+ str (default PNone (assoc "id" items))
    /\ d = {| title := t;
              company := capitalize company;
              location := loc_name;
              jobType := if contains "intern" (lower t) then "Internship" else "Full-time";
              applyUrl := default PNone (assoc "absolute_url" items);
              jdText := desc;
              tags := extract_tags rt t desc;
              source := "scraped";
              sourceMeta := {| sourceId := "scrape_sources/greenhouse"; externalId := key |};
              visibility := "public";
              instituteId := PNone;
              ownerUid := PNone;
              status := "open";
              postedAt := default (PStr now) (assoc "updated_at" items);
              lastSeenAt := now;
              createdAt := now;
              updatedAt := now;
              normalized := {| companyLower := lower company; titleLower := lower t |} |}.
Proof.
  unfold normalize. destruct job as [| | | |l|items]; try discriminate.
  cbn [get bind].
  destruct (default (PStr "") (assoc "title" items)) as [| | |t| |] eqn:Ht; try discriminate.
  destruct (title_is_tech (lower t)) eqn:Htech; [|discriminate].
  cbn [negb]. unfold build_document, external_id_of. cbn [get bind].
  destruct (clean_html_text rt (default (PStr "") (assoc "content" items))) as [desc|] eqn:Hd;
    [|discriminate].
  cbn [bind].
  destruct (get (default (PDict []) (assoc "location" items)) "name" (PStr "Remote"))
    as [loc_name|] eqn:Hl; [|discriminate].
  cbn [bind]. intros H. injection H as <- <-.
  exists items, t, desc, loc_name. repeat split; assumption.
Qed.

Lemma process_job_of_normalize (company now : string) (st : cycle) (job : pyval) :
  process_job rt company now st job
  = match normalize rt company now job with
    | Ok None => Ok st
    | Ok (Some kd) => Ok (add_to_batch st kd)
    | Raise e => Raise e
    end.
Proof. unfold process_job. now destruct (normalize rt company now job) as [[kd|]|e]. Qed.

End Normalization.

(** C8. [clean_html_text] returns the text [Not specified] on [None] and on
    the empty string. *)
Theorem clean_html_text_empty (rt : runtime) :
  clean_html_text rt PNone = Ok "Not specified"
  /\ clean_html_text rt (PStr "") = Ok "Not specified".
Proof. split; reflexivity. Qed.

(** C9. The [jobType] of the document built for a posting of title [t] is
    [Internship] when the lower-cased [t] contains [intern] and [Full-time]
    otherwise; the two titles of the specification come out as stated. *)
Theorem job_type_rule (rt : runtime) (company now : string) (job : pyval)
    (t key : string) (d : document) :
  get job "title" (PStr "") = Ok (PStr t) ->
  normalize rt company now job = Ok (Some (key, d)) ->
  jobType d = (if contains "intern" (lower t) then "Internship" else "Full-time")
  /\ (contains "intern" (lower t) = true
        <-> exists pre post, lower t = pre +:+ "intern" +:+ post)
  /\ (t = "Software Engineering Intern" -> jobType d = "Internship")
  /\ (t = "Backend Engineer" -> jobType d = "Full-time").
Proof.
  intros Ht Hn.
  destruct (normalize_inv rt _ _ _ _ _ Hn)
    as (items & t' & desc & loc_name & -> & Ht' & _ & _ & _ & _ & ->).
  cbn [get] in Ht. rewrite Ht' in Ht. injection Ht as ->. cbn [jobType].
  split; [reflexivity|]. split; [apply contains_spec|].
  split; intros ->; reflexivity.
Qed.

Lemma job_type_rule_witness :
  exists d,
    normalize sample_runtime "figma" sample_now (posting 123 "Software Engineering Intern")
      = Ok (Some ("gh-123", d))
    /\ jobType d = "Internship".
Proof.
  eexists. split; [reflexivity|].
  refine (proj1 (proj2 (proj2
    (job_type_rule sample_runtime "figma" sample_now
       (posting 123 "Software Engineering Intern")
       "Software Engineering Intern" "gh-123" _ eq_refl eq_refl))) eq_refl).
Defined.

Example backend_engineer_full_time :
  option_map (fun kd => jobType (snd kd))
    match normalize sample_runtime "figma" sample_now (posting 7 "Backend Engineer") with
    | Ok r => r | Raise _ => None end
  = Some "Full-time".
Proof. reflexivity. Qed.

(** C10. A document built for a posting that has no [location] key, or whose
    [location] is an object without a [name] key, has the text [Remote] as
    its location. *)
Theorem location_defaults_to_remote (rt : runtime) (company now : string)
    (items : list (string * pyval)) (key : string) (d : document) :
  normalize rt company now (PDict items) = Ok (Some (key, d)) ->
  assoc "location" items = None
  \/ (exists loc_items, assoc "location" items = Some (PDict loc_items)
                        /\ assoc "name" loc_items = None) ->
  location d = PStr "Remote".
Proof.
  intros Hn Hloc.
  destruct (normalize_inv rt _ _ _ _ _ Hn)
    as (items' & t & desc & loc_name & E & _ & _ & _ & Hl & _ & ->).
  injection E as <-. cbn [location].
  destruct Hloc as [Hnone | (loc_items & Hsome & Hname)].
  - rewrite Hnone in Hl. cbn in Hl. congruence.
  - rewrite Hsome in Hl. cbn in Hl. rewrite Hname in Hl. cbn in Hl. congruence.
Qed.

Lemma location_defaults_to_remote_witness :
  exists d,
    normalize sample_runtime "figma" sample_now
      (PDict [("id", PInt 5); ("title", PStr "Data Analyst"); ("location", PDict [])])
      = Ok (Some ("gh-5", d))
    /\ location d = PStr "Remote".
Proof.
  eexists. split; [reflexivity|].
  refine (location_defaults_to_remote sample_runtime "figma" sample_now
            [("id", PInt 5); ("title", PStr "Data Analyst"); ("location", PDict [])]
            "gh-5" _ eq_refl _).
  right. exists []. split; reflexivity.
Defined.

Example location_given :
  option_map (fun kd => location (snd kd))
    match normalize sample_runtime "figma" sample_now
            (PDict [("id", PInt 5); ("title", PStr "Data Analyst");
                    ("location", PDict [("name", PStr "Berlin")])]) with
    | Ok r => r | Raise _ => None end
  = Some (PStr "Berlin").
Proof. reflexivity. Qed.

(** A [location] that is [null] upstream is not an object: the lookup of
    [name] on it raises. *)
Example location_null_raises :
  normalize sample_runtime "figma" sample_now
    (PDict [("id", PInt 5); ("title", PStr "Data Analyst"); ("location", PNone)])
  = Raise AttributeError.
Proof. reflexivity. Qed.

(** ** The document key *)

(** C1, as the code has it.  The key of a built document is [gh-] followed
    by [str] of the posting's [id]; the company whose board was fetched has no
    part in it.  So the keys of two postings are equal exactly when the [str]
    forms of their ids are, whichever sources they came from. *)
Theorem external_id_ignores_source (rt : runtime) (c1 c2 now1 now2 : string)
    (j1 j2 id1 id2 : pyval) (k1 k2 : string) (d1 d2 : document) :
  get j1 "id" PNone = Ok id1 ->
  get j2 "id" PNone = Ok id2 ->
  normalize rt c1 now1 j1 = Ok (Some (k1, d1)) ->
  normalize rt c2 now2 j2 = Ok (Some (k2, d2)) ->
  externalId (sourceMeta d1) = "gh-" +:+ str id1
  /\ externalId (sourceMeta d2) = "gh-" +:+ str id2
  /\ k1 = externalId (sourceMeta d1)
  /\ k2 = externalId (sourceMeta d2)
  /\ (externalId (sourceMeta d1) = externalId (sourceMeta d2) <-> str id1 = str id2).
Proof.
  intros Hi1 Hi2 H1 H2.
  destruct (normalize_inv rt _ _ _ _ _ H1) as (it1 & t1 & ? & ? & -> & _ & _ & _ & _ & -> & ->).
  destruct (normalize_inv rt _ _ _ _ _ H2) as (it2 & t2 & ? & ? & -> & _ & _ & _ & _ & -> & ->).
  cbn [get] in Hi1, Hi2. injection Hi1 as <-. injection Hi2 as <-.
  cbn [sourceMeta externalId]. repeat split; try reflexivity.
  - apply append_inv_head.
  - intros ->. reflexivity.
Qed.

Lemma external_id_ignores_source_witness :
  exists d1 d2,
    normalize sample_runtime "figma" sample_now (posting 123 "Software Engineer")
      = Ok (Some ("gh-123", d1))
    /\ normalize sample_runtime "discord" sample_now (posting 124 "Data Analyst")
      = Ok (Some ("gh-124", d2))
    /\ (externalId (sourceMeta d1) = externalId (sourceMeta d2) <-> str (PInt 123) = str (PInt 124)).
Proof.
  eexists; eexists. split; [reflexivity|]. split; [reflexivity|].
  refine (proj2 (proj2 (proj2 (proj2
    (external_id_ignores_source sample_runtime "figma" "discord" sample_now sample_now
       (posting 123 "Software Engineer") (posting 124 "Data Analyst")
       (PInt 123) (PInt 124) "gh-123" "gh-124" _ _ eq_refl eq_refl eq_refl eq_refl))))).
Defined.

(** C1, as stated, fails: the same posting served by the boards of two
    configured companies gets the same key, [gh-123]. *)
Lemma same_id_two_sources_same_key :
  In "figma" TARGET_COMPANIES /\ In "discord" TARGET_COMPANIES /\ "figma" <> "discord"
  /\ exists d1 d2,
       normalize sample_runtime "figma" sample_now (posting 123 "Software Engineer")
         = Ok (Some ("gh-123", d1))
       /\ normalize sample_runtime "discord" sample_now (posting 123 "Software Engineer")
         = Ok (Some ("gh-123", d2))
       /\ company d1 = "Figma" /\ company d2 = "Discord"
       /\ externalId (sourceMeta d1) = externalId (sourceMeta d2).
Proof.
  split; [simpl; tauto|]. split; [simpl; tauto|]. split; [discriminate|].
  eexists; eexists. repeat split; reflexivity.
Qed.

(** ** Two applications of the normalization *)

Section AcrossRuntimes.
Context (rt1 rt2 : runtime).
Hypothesis same_html : forall v, html_text rt1 v = html_text rt2 v.

Lemma clean_html_text_across (v : pyval) : clean_html_text rt1 v = clean_html_text rt2 v.
Proof. unfold clean_html_text. now rewrite same_html. Qed.

Lemma extract_tags_across (t desc : string) :
  extract_tags rt1 t desc ≡ₚ extract_tags rt2 t desc.
Proof.
  apply Permutation.NoDup_Permutation; [apply set_list_NoDup | apply set_list_NoDup |].
  intros x. unfold extract_tags. now rewrite !set_list_In.
Qed.

(** Under two runtimes whose libraries agree, the normalization skips in
    both, raises the same exception in both, or gives the same key and the
    same document up to the order of the tags. *)
Lemma normalize_across (company now : string) (job : pyval) :
  same_result (same_option same_entry)
    (normalize rt1 company now job) (normalize rt2 company now job).
Proof.
  unfold normalize.
  destruct (get job "title" (PStr "")) as [v|e]; cbn [bind same_result]; [|reflexivity].
  destruct v as [| | |t| |]; cbn [same_result]; try reflexivity.
  destruct (negb (title_is_tech (lower t))); [exact I|].
  unfold build_document.
  destruct (external_id_of job) as [k|e]; cbn [bind same_result]; [|reflexivity].
  destruct (get job "content" (PStr "")) as [raw|e]; cbn [bind same_result]; [|reflexivity].
  rewrite clean_html_text_across.
  destruct (clean_html_text rt2 raw) as [desc|e]; cbn [bind same_result]; [|reflexivity].
  destruct (get job "location" (PDict [])) as [loc|e]; cbn [bind same_result]; [|reflexivity].
  destruct (get loc "name" (PStr "Remote")) as [name|e]; cbn [bind same_result]; [|reflexivity].
  destruct (get job "absolute_url" PNone) as [url|e]; cbn [bind same_result]; [|reflexivity].
  destruct (get job "updated_at" (PStr now)) as [upd|e]; cbn [bind same_result]; [|reflexivity].
  cbn [same_option]. split; [reflexivity|]. split; [reflexivity|].
  cbn [snd tags]. apply extract_tags_across.
Qed.

(** When the two runtimes also list sets in the same order, the
    normalization gives the same answer under both. *)
Lemma normalize_same_order (company now : string) (job : pyval) :
  (forall l, set_list rt1 l = set_list rt2 l) ->
  normalize rt1 company now job = normalize rt2 company now job.
Proof.
  intros Hset. unfold normalize, build_document, extract_tags.
  destruct (get job "title" (PStr "")) as [v|e]; cbn [bind]; [|reflexivity].
  destruct v as [| | |t| |]; try reflexivity.
  destruct (negb (title_is_tech (lower t))); [reflexivity|].
  destruct (external_id_of job) as [k|e]; cbn [bind]; [|reflexivity].
  destruct (get job "content" (PStr "")) as [raw|e]; cbn [bind]; [|reflexivity].
  rewrite clean_html_text_across.
  destruct (clean_html_text rt2 raw) as [desc|e]; cbn [bind]; [|reflexivity].
  now rewrite Hset.
Qed.

End AcrossRuntimes.

(** C7, as the code has it.  Two applications of the normalization to the
    same posting, company and timestamp, in interpreters whose libraries
    behave alike, both skip, or both raise the same exception, or both give
    the same key and documents that agree on every field except, possibly,
    the order of the tags, which are the same tags; when the two interpreters
    also list a set in the same order (as one process does), the two answers
    are identical. *)
Theorem normalization_fixed_up_to_tag_order (rt1 rt2 : runtime) (company now : string)
    (job : pyval) :
  (forall v, html_text rt1 v = html_text rt2 v) ->
  same_result (same_option same_entry)
    (normalize rt1 company now job) (normalize rt2 company now job)
  /\ ((forall l, set_list rt1 l = set_list rt2 l) ->
      normalize rt1 company now job = normalize rt2 company now job).
Proof.
  intros Hhtml. split.
  - exact (normalize_across rt1 rt2 Hhtml company now job).
  - exact (normalize_same_order rt1 rt2 Hhtml company now job).
Qed.

Lemma normalization_fixed_up_to_tag_order_witness :
  same_result (same_option same_entry)
    (normalize sample_runtime "figma" sample_now (posting 11 "Senior Data Engineer"))
    (normalize reversed_runtime "figma" sample_now (posting 11 "Senior Data Engineer")).
Proof.
  refine (proj1 (normalization_fixed_up_to_tag_order sample_runtime reversed_runtime
                   "figma" sample_now (posting 11 "Senior Data Engineer") _)).
  intros v. reflexivity.
Defined.

(** C7, as stated, fails: the same posting, company and timestamp give
    documents with the tags in two different orders in two interpreters that
    differ only in the order in which they list a set. *)
Lemma tag_order_differs_between_interpreters :
  (forall v, html_text sample_runtime v = html_text reversed_runtime v)
  /\ exists d1 d2,
       normalize sample_runtime "figma" sample_now (posting 11 "Senior Data Engineer")
         = Ok (Some ("gh-11", d1))
       /\ normalize reversed_runtime "figma" sample_now (posting 11 "Senior Data Engineer")
         = Ok (Some ("gh-11", d2))
       /\ tags d1 = ["Engineer"; "Data"]
       /\ tags d2 = ["Data"; "Engineer"]
       /\ d1 <> d2.
Proof.
  split; [reflexivity|]. eexists; eexists.
  split; [reflexivity|]. split; [reflexivity|]. split; [reflexivity|]. split; [reflexivity|].
  intros E. apply (f_equal tags) in E. discriminate E.
Qed.

(** ** The loops *)

Section Loops.
Context {A S : Type} (body : S -> A -> pyres S).

Lemma for_each_app (l1 l2 : list A) (s : S) :
  for_each body (l1 ++ l2) s = bind (for_each body l1 s) (for_each body l2).
Proof.
  revert s; induction l1 as [|x l1 IH]; intros s; simpl; [reflexivity|].
  destruct (body s x) as [s'|e]; simpl; [apply IH | reflexivity].
Qed.

(** An element on which the body changes nothing can be left out. *)
Lemma for_each_skip (l1 l2 : list A) (x : A) (s : S) :
  (forall s0, body s0 x = Ok s0) ->
  for_each body (l1 ++ x :: l2) s = for_each body (l1 ++ l2) s.
Proof.
  intros Hx. rewrite !for_each_app. destruct (for_each body l1 s) as [s1|e]; simpl;
    [now rewrite Hx | reflexivity].
Qed.

(** An element on which the body raises from every state makes the loop
    raise: either there, or earlier. *)
Lemma for_each_raises (l : list A) (x : A) :
  In x l ->
  (forall s0, exists e, body s0 x = Raise e) ->
  forall s, exists e, for_each body l s = Raise e.
Proof.
  intros Hin Hx. induction l as [|y l IH]; [destruct Hin|]. intros s. simpl.
  destruct (body s y) as [s'|e] eqn:E; simpl.
  - destruct Hin as [->|Hin]; [|now apply IH].
    destruct (Hx s) as [e He]. congruence.
  - now exists e.
Qed.

(** A property of the state that every step keeps holds at the end. *)
Lemma for_each_invariant (P : S -> Prop) (l : list A) :
  (forall s x s', P s -> body s x = Ok s' -> P s') ->
  forall s s', P s -> for_each body l s = Ok s' -> P s'.
Proof.
  intros Hstep. induction l as [|x l IH]; intros s s' Hs H; simpl in H.
  - injection H as <-. exact Hs.
  - destruct (body s x) as [s1|e] eqn:E; simpl in H; [|discriminate].
    exact (IH s1 s' (Hstep _ _ _ Hs E) H).
Qed.

End Loops.

(** ** One source *)

Section Sources.
Context (rt : runtime) (w : world).

Lemma process_source_non_200 (company : string) (code : Z) (body : option pyval) (st : cycle) :
  http_get w (board_url company) = Response code body ->
  code <> 200%Z ->
  process_source rt w st company = Ok st.
Proof.
  intros Hget Hcode. unfold process_source. rewrite Hget.
  destruct (Z.eqb_spec code 200); [contradiction | reflexivity].
Qed.

Lemma process_source_unreachable (company : string) (st : cycle) :
  http_get w (board_url company) = Unreachable ->
  process_source rt w st company = Raise RequestException.
Proof. intros Hget. unfold process_source. now rewrite Hget. Qed.

Lemma process_job_raises (company : string) (job : pyval) (e : exn) (st : cycle) :
  normalize rt company (now_iso w) job = Raise e ->
  process_job rt company (now_iso w) st job = Raise e.
Proof. intros H. now rewrite process_job_of_normalize, H. Qed.

Lemma process_source_raises (company : string) (payload jobsv job : pyval)
    (jobs : list pyval) (e : exn) (st : cycle) :
  http_get w (board_url company) = Response 200 (Some payload) ->
  get payload "jobs" (PList []) = Ok jobsv ->
  iterate jobsv = Ok jobs ->
  In job jobs ->
  normalize rt company (now_iso w) job = Raise e ->
  exists cause, process_source rt w st company = Raise cause.
Proof.
  intros Hget Hjobs Hiter Hin Hn. unfold process_source.
  rewrite Hget. cbn [Z.eqb Pos.eqb bind]. rewrite Hjobs. cbn [bind]. rewrite Hiter. cbn [bind].
  apply (for_each_raises _ jobs job Hin). intros s0. exists e.
  now apply process_job_raises.
Qed.

Lemma process_job_counted (company now : string) (st st' : cycle) (job : pyval) :
  counted st -> process_job rt company now st job = Ok st' -> counted st'.
Proof.
  unfold counted. intros Hc H. rewrite process_job_of_normalize in H.
  destruct (normalize rt company now job) as [[kd|]|e]; [| |discriminate].
  - injection H as <-. simpl. rewrite length_app, Hc. simpl. lia.
  - now injection H as <-.
Qed.

Lemma process_source_counted (st st' : cycle) (company : string) :
  counted st -> process_source rt w st company = Ok st' -> counted st'.
Proof.
  intros Hc. unfold process_source.
  destruct (http_get w (board_url company)) as [|code body]; [discriminate|].
  destruct (code =? 200)%Z; [|now intros [= <-]].
  destruct body as [payload|]; [|discriminate]. cbn [bind].
  destruct (get payload "jobs" (PList [])) as [jobsv|]; [|discriminate]. cbn [bind].
  destruct (iterate jobsv) as [jobs|]; [|discriminate]. cbn [bind].
  apply (for_each_invariant _ counted); [|exact Hc].
  intros s x s' Hs Hx. exact (process_job_counted _ _ _ _ _ Hs Hx).
Qed.

Lemma stage_counted (sources : list string) (st : cycle) :
  stage rt w sources = Ok st -> counted st.
Proof.
  unfold stage. apply (for_each_invariant _ counted); [|reflexivity].
  intros s x s' Hs Hx. exact (process_source_counted _ _ _ Hs Hx).
Qed.

End Sources.

(** ** The store *)

Lemma apply_batch_snoc (b : list (string * document)) (k : string) (d : document)
    (db : gmap string document) :
  apply_batch (b ++ [(k, d)]) db !! k = Some d.
Proof. unfold apply_batch. rewrite foldl_app. simpl. apply lookup_insert_eq. Qed.

Lemma apply_batch_nil (db : gmap string document) : apply_batch [] db = db.
Proof. reflexivity. Qed.

(** ** A source that does not answer 200 *)

(** C2, as the code has it.  A source whose board answers with a status other
    than 200 (every non-2xx status is one) adds nothing to the batch, and the
    cycle goes on as if the source were not configured: what is staged, the
    answer, the store and the commits are those of the cycle over the other
    sources. *)
Theorem non_200_source_is_skipped (rt : runtime) (w : world) (before after : list string)
    (company : string) (code : Z) (body : option pyval) (db : gmap string document) :
  http_get w (board_url company) = Response code body ->
  code <> 200%Z ->
  (forall st, process_source rt w st company = Ok st)
  /\ stage rt w (before ++ company :: after) = stage rt w (before ++ after)
  /\ run rt w (before ++ company :: after) db = run rt w (before ++ after) db.
Proof.
  intros Hget Hcode.
  assert (Hskip : forall st, process_source rt w st company = Ok st)
    by (intros st; exact (process_source_non_200 rt w company code body st Hget Hcode)).
  assert (Hstage : stage rt w (before ++ company :: after) = stage rt w (before ++ after))
    by (unfold stage; now apply for_each_skip).
  split; [exact Hskip|]. split; [exact Hstage|].
  unfold run. now rewrite Hstage.
Qed.

Lemma non_200_source_is_skipped_witness :
  http_get figma_503 (board_url "figma") = Response 503 None
  /\ sync_scraped_jobs_to_firebase sample_runtime figma_503 ∅
     = run sample_runtime figma_503 ["discord"; "dropbox"; "duolingo"] ∅.
Proof.
  split; [reflexivity|].
  refine (proj2 (proj2
    (non_200_source_is_skipped sample_runtime figma_503 [] ["discord"; "dropbox"; "duolingo"]
       "figma" 503 None ∅ eq_refl _))).
  discriminate.
Defined.

Example figma_503_cycle_succeeds :
  result (sync_scraped_jobs_to_firebase sample_runtime figma_503 ∅) = Succeeded (success 1).
Proof. reflexivity. Qed.

(** C2, as stated, fails: when the request to the first board fails at
    transport level the cycle fails, and the posting Discord would have
    served is not committed. *)
Lemma unreachable_source_fails_cycle :
  http_get figma_unreachable (board_url "figma") = Unreachable
  /\ result (sync_scraped_jobs_to_firebase sample_runtime figma_unreachable ∅)
     = Failed 500 RequestException
  /\ commits (sync_scraped_jobs_to_firebase sample_runtime figma_unreachable ∅) = []
  /\ result (run sample_runtime figma_unreachable ["discord"; "dropbox"; "duolingo"] ∅)
     = Succeeded (success 1).
Proof. repeat split; reflexivity. Qed.

(** ** A failure during normalization *)

Lemma run_of_raise (rt : runtime) (w : world) (sources : list string)
    (db : gmap string document) (e : exn) :
  stage rt w sources = Raise e ->
  run rt w sources db = {| result := Failed 500 e; store := db; commits := [] |}.
Proof. intros H. unfold run. now rewrite H. Qed.

(** C3. When the normalization of some posting served by some configured
    source raises, the cycle ends in [Failed], [commit] is called on no batch
    and the store is the one the cycle started with. *)
Theorem normalization_failure_aborts (rt : runtime) (w : world) (sources : list string)
    (db : gmap string document) (company : string) (payload jobsv job : pyval)
    (jobs : list pyval) (e : exn) :
  In company sources ->
  http_get w (board_url company) = Response 200 (Some payload) ->
  get payload "jobs" (PList []) = Ok jobsv ->
  iterate jobsv = Ok jobs ->
  In job jobs ->
  normalize rt company (now_iso w) job = Raise e ->
  exists cause,
    result (run rt w sources db) = Failed 500 cause
    /\ store (run rt w sources db) = db
    /\ commits (run rt w sources db) = [].
Proof.
  intros Hc Hget Hjobs Hiter Hin Hn.
  destruct (for_each_raises (process_source rt w) sources company Hc
              (fun s0 => process_source_raises rt w company payload jobsv job jobs e s0
                           Hget Hjobs Hiter Hin Hn)
              {| batch := []; upload_count := 0 |}) as [cause Hcause].
  exists cause. rewrite (run_of_raise rt w sources db cause Hcause). repeat split.
Qed.

Lemma normalization_failure_aborts_witness :
  exists cause,
    result (sync_scraped_jobs_to_firebase sample_runtime second_of_three_breaks ∅)
      = Failed 500 cause
    /\ store (sync_scraped_jobs_to_firebase sample_runtime second_of_three_breaks ∅) = ∅
    /\ commits (sync_scraped_jobs_to_firebase sample_runtime second_of_three_breaks ∅) = [].
Proof.
  refine (normalization_failure_aborts sample_runtime second_of_three_breaks
            TARGET_COMPANIES ∅ "figma" _ _
            (PDict [("id", PInt 2); ("title", PStr "Data Analyst"); ("location", PNone)])
            _ AttributeError _ eq_refl eq_refl eq_refl _ eq_refl).
  - simpl; tauto.
  - simpl; tauto.
Defined.

Example second_of_three_breaks_result :
  result (sync_scraped_jobs_to_firebase sample_runtime second_of_three_breaks ∅)
  = Failed 500 AttributeError.
Proof. reflexivity. Qed.

(** ** The commit *)

(** C6. Once every source has been processed: the counter is the number of
    staged documents; with none staged, [commit] is not called, the store is
    untouched and the answer is a success with [synced_count] 0; with some
    staged, [commit] is called once, on the whole batch, and when it goes
    through the answer is a success whose [synced_count] is the number of
    staged documents (when it raises, the cycle fails and the store is
    untouched). *)
Theorem commit_rule (rt : runtime) (w : world) (sources : list string)
    (db : gmap string document) (st : cycle) :
  stage rt w sources = Ok st ->
  upload_count st = length (batch st)
  /\ (batch st = [] ->
        run rt w sources db
        = {| result := Succeeded (success 0); store := db; commits := [] |}
        /\ synced_count (success 0) = 0)
  /\ (batch st <> [] ->
        commits (run rt w sources db) = [batch st]
        /\ (commit_error w (batch st) = None ->
              result (run rt w sources db) = Succeeded (success (length (batch st)))
              /\ synced_count (success (length (batch st))) = length (batch st)
              /\ store (run rt w sources db) = apply_batch (batch st) db)
        /\ (forall e, commit_error w (batch st) = Some e ->
              result (run rt w sources db) = Failed 500 e
              /\ store (run rt w sources db) = db)).
Proof.
  intros Hst. pose proof (stage_counted rt w sources st Hst) as Hc. unfold counted in Hc.
  split; [exact Hc|]. unfold run. rewrite Hst, Hc. split.
  - intros ->. simpl. split; reflexivity.
  - intros Hne. destruct (batch st) as [|kd b] eqn:Eb; [contradiction|].
    cbn [length Nat.ltb Nat.leb].
    destruct (commit_error w (kd :: b)) as [e|]; cbn [commits result store].
    + split; [reflexivity|]. split; [discriminate|]. intros e' [= <-]. now split.
    + split; [reflexivity|]. split; [|discriminate]. intros _. repeat split.
Qed.

Lemma commit_rule_witness :
  exists st,
    stage sample_runtime nothing_relevant TARGET_COMPANIES = Ok st
    /\ batch st = []
    /\ sync_scraped_jobs_to_firebase sample_runtime nothing_relevant ∅
       = {| result := Succeeded (success 0); store := ∅; commits := [] |}.
Proof.
  eexists. split; [reflexivity|]. split; [reflexivity|].
  refine (proj1 (proj1 (proj2 (commit_rule sample_runtime nothing_relevant TARGET_COMPANIES ∅
                                 _ eq_refl)) eq_refl)).
Defined.

Example two_sources_cycle :
  let o := run sample_runtime two_sources ["figma"; "discord"] ∅ in
  result o = Succeeded (success 2)
  /\ map (map fst) (commits o) = [["gh-1"; "gh-3"]]
  /\ map fst (map_to_list (store o)) ≡ₚ ["gh-1"; "gh-3"].
Proof.
  split; [reflexivity|]. split; [reflexivity|].
  vm_compute. apply Permutation_refl || apply perm_swap.
Qed.

(** ** What the batch holds *)

Section LoopsAgain.
Context {A S : Type} (body : S -> A -> pyres S).

Lemma for_each_invariant_in (P : S -> Prop) (l : list A) :
  (forall s x s', In x l -> P s -> body s x = Ok s' -> P s') ->
  forall s s', P s -> for_each body l s = Ok s' -> P s'.
Proof.
  induction l as [|x l IH]; intros Hstep s s' Hs H; simpl in H.
  - injection H as <-. exact Hs.
  - destruct (body s x) as [s1|e] eqn:E; simpl in H; [|discriminate].
    apply (IH (fun s0 y s0' Hy => Hstep s0 y s0' (or_intror Hy)) s1 s'); [|exact H].
    exact (Hstep s x s1 (or_introl eq_refl) Hs E).
Qed.

(** In a loop that ran to its end every element was processed, from a state
    that follows the first one and into a state the last one follows. *)
Lemma for_each_reaches (R : S -> S -> Prop) (l : list A) (x : A) :
  (forall s, R s s) ->
  (forall a b c, R a b -> R b c -> R a c) ->
  (forall s y s', body s y = Ok s' -> R s s') ->
  In x l ->
  forall s s', for_each body l s = Ok s' ->
  exists s1 s2, body s1 x = Ok s2 /\ R s s1 /\ R s2 s'.
Proof.
  intros Hrefl Htrans Hstep Hin.
  assert (Hall : forall l0 s s', for_each body l0 s = Ok s' -> R s s').
  { induction l0 as [|y l0 IH0]; intros s s' H; simpl in H.
    - injection H as <-. apply Hrefl.
    - destruct (body s y) as [s1|e] eqn:E; simpl in H; [|discriminate].
      exact (Htrans _ _ _ (Hstep _ _ _ E) (IH0 _ _ H)). }
  induction l as [|y l IH]; [destruct Hin|]. intros s s' H. simpl in H.
  destruct (body s y) as [s1|e] eqn:E; simpl in H; [|discriminate].
  destruct Hin as [->|Hin].
  - exists s, s1. split; [exact E|]. split; [apply Hrefl | exact (Hall _ _ _ H)].
  - destruct (IH Hin s1 s' H) as (t1 & t2 & Hb & H1 & H2).
    exists t1, t2. split; [exact Hb|]. split; [|exact H2].
    exact (Htrans _ _ _ (Hstep _ _ _ E) H1).
Qed.

End LoopsAgain.

Section Batch.
Context (rt : runtime) (w : world).

Lemma grows_refl (st : cycle) : grows st st.
Proof. exists []. now rewrite app_nil_r. Qed.

Lemma grows_trans (a b c : cycle) : grows a b -> grows b c -> grows a c.
Proof. intros [l1 H1] [l2 H2]. exists (l1 ++ l2). now rewrite H2, H1, <- app_assoc. Qed.

Lemma grows_In (st st' : cycle) (kd : string * document) :
  grows st st' -> In kd (batch st) -> In kd (batch st').
Proof. intros [l H] Hin. rewrite H. apply in_or_app. now left. Qed.

Lemma process_job_grows (company now : string) (st st' : cycle) (job : pyval) :
  process_job rt company now st job = Ok st' -> grows st st'.
Proof.
  rewrite process_job_of_normalize.
  destruct (normalize rt company now job) as [[kd|]|e]; [| |discriminate]; intros [= <-].
  - now exists [kd].
  - apply grows_refl.
Qed.

(** The inner loop of a source whose board was read. *)
Lemma process_source_200 (company : string) (payload jobsv : pyval) (jobs : list pyval)
    (st : cycle) :
  http_get w (board_url company) = Response 200 (Some payload) ->
  get payload "jobs" (PList []) = Ok jobsv ->
  iterate jobsv = Ok jobs ->
  process_source rt w st company = for_each (process_job rt company (now_iso w)) jobs st.
Proof.
  intros Hget Hjobs Hiter. unfold process_source.
  rewrite Hget. cbn [Z.eqb Pos.eqb bind]. rewrite Hjobs. cbn [bind]. now rewrite Hiter.
Qed.

(** A source that let the loop go on either answered something else than 200
    or had its board read. *)
Lemma process_source_ok (company : string) (st st' : cycle) :
  process_source rt w st company = Ok st' ->
  (st' = st /\ exists code body, http_get w (board_url company) = Response code body
                                 /\ code <> 200%Z)
  \/ exists payload jobsv jobs,
       http_get w (board_url company) = Response 200 (Some payload)
       /\ get payload "jobs" (PList []) = Ok jobsv
       /\ iterate jobsv = Ok jobs
       /\ for_each (process_job rt company (now_iso w)) jobs st = Ok st'.
Proof.
  unfold process_source.
  destruct (http_get w (board_url company)) as [|code body]; [discriminate|].
  destruct (Z.eqb_spec code 200) as [->|Hne].
  - destruct body as [payload|]; [|discriminate]. cbn [bind].
    destruct (get payload "jobs" (PList [])) as [jobsv|] eqn:Hj; [|discriminate]. cbn [bind].
    destruct (iterate jobsv) as [jobs|] eqn:Hi; [|discriminate]. cbn [bind].
    intros H. right. now exists payload, jobsv, jobs.
  - intros [= <-]. left. split; [reflexivity|]. now exists code, body.
Qed.

Lemma process_source_grows (company : string) (st st' : cycle) :
  process_source rt w st company = Ok st' -> grows st st'.
Proof.
  intros H. destruct (process_source_ok _ _ _ H)
    as [[-> _] | (payload & jobsv & jobs & _ & _ & _ & Hloop)]; [apply grows_refl|].
  destruct jobs as [|job jobs]; [injection Hloop as <-; apply grows_refl|].
  destruct (for_each_reaches (process_job rt company (now_iso w)) grows (job :: jobs) job
              grows_refl grows_trans
              (fun s y s' => process_job_grows company (now_iso w) s s' y)
              (or_introl eq_refl) st st' Hloop) as (s1 & s2 & Hb & H1 & H2).
  exact (grows_trans _ _ _ H1 (grows_trans _ _ _ (process_job_grows _ _ _ _ _ Hb) H2)).
Qed.

End Batch.

Lemma batch_spec (rt : runtime) (w : world) (sources : list string)
    (st : cycle) (kd : string * document) :
  stage rt w sources = Ok st ->
  In kd (batch st)
  <-> exists company job,
        In company sources /\ serves w company job
        /\ normalize rt company (now_iso w) job = Ok (Some kd).
Proof.
  intros Hst. split.
  - revert kd.
    apply (for_each_invariant_in (process_source rt w)
             (fun st0 => forall kd, In kd (batch st0) ->
                exists company job, In company sources /\ serves w company job
                  /\ normalize rt company (now_iso w) job = Ok (Some kd))
             sources) with (s := {| batch := []; upload_count := 0 |}) (s' := st);
      [| intros kd [] | exact Hst].
    intros s company s' Hc Hs Hsrc.
    destruct (process_source_ok rt w _ _ _ Hsrc)
      as [[-> _] | (payload & jobsv & jobs & Hget & Hjobs & Hiter & Hloop)]; [exact Hs|].
    apply (for_each_invariant_in (process_job rt company (now_iso w))
             (fun st0 => forall kd, In kd (batch st0) ->
                exists company job, In company sources /\ serves w company job
                  /\ normalize rt company (now_iso w) job = Ok (Some kd))
             jobs) with (s := s) (s' := s'); [| exact Hs | exact Hloop].
    intros s0 job s0' Hjob Hs0 Hstep kd Hkd.
    rewrite process_job_of_normalize in Hstep.
    destruct (normalize rt company (now_iso w) job) as [[kd'|]|e] eqn:Hn; [| |discriminate];
      injection Hstep as <-; [|now apply Hs0].
    cbn [batch add_to_batch] in Hkd. apply in_app_or in Hkd as [Hkd | [<- | []]];
      [now apply Hs0|].
    exists company, job. split; [exact Hc|]. split; [|exact Hn].
    now exists payload, jobsv, jobs.
  - intros (company & job & Hc & (payload & jobsv & jobs & Hget & Hjobs & Hiter & Hjob) & Hn).
    destruct (for_each_reaches (process_source rt w) grows sources company
                grows_refl grows_trans
                (fun s y s' => process_source_grows rt w y s s')
                Hc _ st Hst) as (s1 & s2 & Hb & _ & H2).
    rewrite (process_source_200 rt w company payload jobsv jobs s1 Hget Hjobs Hiter) in Hb.
    destruct (for_each_reaches (process_job rt company (now_iso w)) grows jobs job
                grows_refl grows_trans
                (fun s y s' => process_job_grows rt company (now_iso w) s s' y)
                Hjob s1 s2 Hb) as (t1 & t2 & Hstep & _ & H3).
    rewrite process_job_of_normalize, Hn in Hstep. injection Hstep as <-.
    apply (grows_In _ _ _ H2), (grows_In _ _ _ H3).
    cbn [batch add_to_batch]. apply in_or_app. right. now left.
Qed.

(** X1. When the loops run to their end, the batch holds exactly the keys
    and documents the normalization gives for the postings served by the
    configured sources: nothing else is staged, and no served posting that
    passes the filter is left out. *)
Theorem batch_is_the_served_tech_postings (rt : runtime) (w : world) (sources : list string)
    (st : cycle) (kd : string * document) :
  stage rt w sources = Ok st ->
  In kd (batch st)
  <-> exists company job,
        In company sources /\ serves w company job
        /\ normalize rt company (now_iso w) job = Ok (Some kd).
Proof. exact (batch_spec rt w sources st kd). Qed.

Lemma batch_is_the_served_tech_postings_witness :
  exists st,
    stage sample_runtime two_sources ["figma"; "discord"] = Ok st
    /\ map fst (batch st) = ["gh-1"; "gh-3"]
    /\ forall kd,
         In kd (batch st)
         <-> exists company job,
               In company ["figma"; "discord"] /\ serves two_sources company job
               /\ normalize sample_runtime company (now_iso two_sources) job = Ok (Some kd).
Proof.
  eexists. split; [reflexivity|]. split; [reflexivity|]. intros kd.
  exact (batch_is_the_served_tech_postings sample_runtime two_sources
           ["figma"; "discord"] _ kd eq_refl).
Defined.

Lemma staged_shape (rt : runtime) (w : world) (sources : list string)
    (st : cycle) (k : string) (d : document) :
  stage rt w sources = Ok st ->
  In (k, d) (batch st) ->
  k = externalId (sourceMeta d)
  /\ (exists id_text, k = "gh-" +:+ id_text)
  /\ sourceId (sourceMeta d) = "scrape_sources/greenhouse"
  /\ source d = "scraped" /\ visibility d = "public" /\ status d = "open"
  /\ instituteId d = PNone /\ ownerUid d = PNone
  /\ lastSeenAt d = now_iso w /\ createdAt d = now_iso w /\ updatedAt d = now_iso w
  /\ (exists c, In c sources /\ company d = capitalize c
                /\ companyLower (normalized d) = lower c)
  /\ titleLower (normalized d) = lower (title d)
  /\ title_is_tech (lower (title d)) = true.
Proof.
  intros Hst Hin.
  apply (batch_spec rt w sources st (k, d) Hst) in Hin
    as (c & job & Hc & _ & Hn).
  destruct (normalize_inv rt _ _ _ _ _ Hn)
    as (items & t & desc & loc_name & _ & _ & Htech & _ & _ & Hk & ->).
  cbn [sourceMeta externalId sourceId source visibility status instituteId ownerUid
       lastSeenAt createdAt updatedAt company normalized companyLower titleLower title].
  split; [reflexivity|]. split; [eexists; exact Hk|].
  do 9 (split; [reflexivity|]). split; [now exists c|]. now split.
Qed.

(** X2. Every entry of the batch is keyed by the [externalId] of its
    document, a text that starts with [gh-]; its document carries the fixed
    provenance and visibility fields, the timestamp of the cycle in
    [lastSeenAt], [createdAt] and [updatedAt], the capitalized name of one of
    the configured sources, and a title that passes the filter. *)
Theorem staged_documents_shape (rt : runtime) (w : world) (sources : list string)
    (st : cycle) (k : string) (d : document) :
  stage rt w sources = Ok st ->
  In (k, d) (batch st) ->
  k = externalId (sourceMeta d)
  /\ (exists id_text, k = "gh-" +:+ id_text)
  /\ sourceId (sourceMeta d) = "scrape_sources/greenhouse"
  /\ source d = "scraped" /\ visibility d = "public" /\ status d = "open"
  /\ instituteId d = PNone /\ ownerUid d = PNone
  /\ lastSeenAt d = now_iso w /\ createdAt d = now_iso w /\ updatedAt d = now_iso w
  /\ (exists c, In c sources /\ company d = capitalize c
                /\ companyLower (normalized d) = lower c)
  /\ titleLower (normalized d) = lower (title d)
  /\ title_is_tech (lower (title d)) = true.
Proof. exact (staged_shape rt w sources st k d). Qed.

Lemma staged_documents_shape_witness :
  exists st d,
    stage sample_runtime two_sources ["figma"; "discord"] = Ok st
    /\ In ("gh-3", d) (batch st)
    /\ "gh-3" = externalId (sourceMeta d)
    /\ createdAt d = sample_now.
Proof.
  eexists. eexists. split; [reflexivity|]. split; [right; left; reflexivity|].
  pose proof (staged_documents_shape sample_runtime two_sources ["figma"; "discord"]
                _ "gh-3" _ eq_refl (or_intror (or_introl eq_refl))) as H.
  split; [exact (proj1 H)|].
  exact (proj1 (proj2 (proj2 (proj2 (proj2 (proj2 (proj2 (proj2 (proj2 (proj2 H)))))))))).
Defined.

(** ** What a cycle does to the store *)

Section Store.

Lemma apply_batch_last (b : list (string * document)) (kd : string * document)
    (db : gmap string document) :
  apply_batch (b ++ [kd]) db = <[fst kd := snd kd]> (apply_batch b db).
Proof. unfold apply_batch. now rewrite foldl_app. Qed.

(** The store after a commit is the batch, applied to an empty store, laid
    over the store before. *)
Lemma apply_batch_union (b : list (string * document)) (db : gmap string document) :
  apply_batch b db = apply_batch b ∅ ∪ db.
Proof.
  induction b as [|kd b IH] using rev_ind.
  - cbn. now rewrite (left_id_L ∅ (∪)).
  - rewrite !apply_batch_last, IH. apply insert_union_l.
Qed.

Lemma apply_batch_empty_None (b : list (string * document)) (k : string) :
  (forall d, ~ In (k, d) b) -> apply_batch b ∅ !! k = None.
Proof.
  induction b as [|[k' d'] b IH] using rev_ind; intros Hk; [apply lookup_empty|].
  rewrite apply_batch_last. cbn [fst snd].
  rewrite lookup_insert_ne.
  - apply IH. intros d Hin. apply (Hk d), in_or_app. now left.
  - intros ->. apply (Hk d'), in_or_app. right. now left.
Qed.

Lemma apply_batch_untouched (b : list (string * document)) (db : gmap string document)
    (k : string) :
  (forall d, ~ In (k, d) b) -> apply_batch b db !! k = db !! k.
Proof.
  intros Hk. rewrite apply_batch_union. apply lookup_union_r, apply_batch_empty_None, Hk.
Qed.

Lemma apply_batch_staged (b : list (string * document)) (db : gmap string document)
    (k : string) (d : document) :
  In (k, d) b -> exists d', apply_batch b db !! k = Some d' /\ In (k, d') b.
Proof.
  induction b as [|[k' d'] b IH] using rev_ind; intros Hin; [destruct Hin|].
  rewrite apply_batch_last. cbn [fst snd].
  destruct (String.eqb_spec k' k) as [->|Hne].
  - exists d'. rewrite lookup_insert_eq. split; [reflexivity|].
    apply in_or_app. right. now left.
  - rewrite lookup_insert_ne by exact Hne.
    apply in_app_or in Hin as [Hin | [E | []]]; [|congruence].
    destruct (IH Hin) as (d0 & Hl & Hin0). exists d0. split; [exact Hl|].
    apply in_or_app. now left.
Qed.

Lemma apply_batch_keeps (b : list (string * document)) (db : gmap string document)
    (k : string) :
  is_Some (db !! k) -> is_Some (apply_batch b db !! k).
Proof.
  intros Hk. induction b as [|[k' d'] b IH] using rev_ind; [exact Hk|].
  rewrite apply_batch_last. cbn [fst snd].
  destruct (String.eqb_spec k' k) as [->|Hne].
  - rewrite lookup_insert_eq. now eexists.
  - now rewrite lookup_insert_ne.
Qed.

Lemma apply_batch_idempotent (b : list (string * document)) (db : gmap string document) :
  apply_batch b (apply_batch b db) = apply_batch b db.
Proof.
  rewrite (apply_batch_union b (apply_batch b db)), (apply_batch_union b db).
  rewrite (assoc_L (∪)). now rewrite (idemp_L (∪)).
Qed.

End Store.

(** What [run] leaves in the store, by cases. *)
Lemma run_store (rt : runtime) (w : world) (sources : list string)
    (db : gmap string document) :
  store (run rt w sources db) = db
  \/ exists st, stage rt w sources = Ok st
                /\ batch st <> []
                /\ commit_error w (batch st) = None
                /\ result (run rt w sources db) = Succeeded (success (upload_count st))
                /\ store (run rt w sources db) = apply_batch (batch st) db.
Proof.
  unfold run. destruct (stage rt w sources) as [st|e] eqn:Hst; [|now left].
  pose proof (stage_counted rt w sources st Hst) as Hc. unfold counted in Hc.
  destruct (0 <? upload_count st)%nat eqn:Hpos; [|now left].
  destruct (commit_error w (batch st)) as [e|] eqn:Hce; [now left|].
  right. exists st. repeat split; try assumption.
  intros Hnil. rewrite Hc, Hnil in Hpos. discriminate.
Qed.

(** X3. A cycle that ends in [Failed] answers with status 500 and leaves the
    store exactly as it found it, whatever made it fail; no cycle calls
    [commit] more than once, and a cycle that does not call it leaves the
    store as it found it. *)
Theorem failed_cycle_leaves_store (rt : runtime) (w : world) (sources : list string)
    (db : gmap string document) :
  (forall code cause,
     result (run rt w sources db) = Failed code cause ->
     code = 500%Z /\ store (run rt w sources db) = db)
  /\ length (commits (run rt w sources db)) <= 1
  /\ (commits (run rt w sources db) = [] -> store (run rt w sources db) = db).
Proof.
  unfold run. destruct (stage rt w sources) as [st|e].
  - destruct (0 <? upload_count st)%nat.
    + destruct (commit_error w (batch st)) as [e|]; cbn [result store commits length].
      * split; [intros code cause [= <- _]; now split|]. split; [lia | discriminate].
      * split; [discriminate|]. split; [lia | discriminate].
    + cbn [result store commits length]. split; [discriminate|]. split; [lia | reflexivity].
  - cbn [result store commits length].
    split; [intros code cause [= <- _]; now split|]. split; [lia | reflexivity].
Qed.

(** X4. A cycle never removes a document, and never changes a document
    whose key does not start with [gh-]. *)
Theorem cycle_keeps_other_documents (rt : runtime) (w : world) (sources : list string)
    (db : gmap string document) (k : string) (d0 : document) :
  db !! k = Some d0 ->
  is_Some (store (run rt w sources db) !! k)
  /\ ((forall id_text, k <> "gh-" +:+ id_text) -> store (run rt w sources db) !! k = Some d0).
Proof.
  intros Hk.
  destruct (run_store rt w sources db) as [-> | (st & Hst & _ & _ & _ & ->)].
  - split; [now exists d0 | now intros _].
  - split; [apply apply_batch_keeps; now exists d0|].
    intros Hgh. rewrite apply_batch_untouched; [exact Hk|].
    intros d Hin.
    destruct (staged_shape rt w sources st k d Hst Hin) as (_ & (id_text & E) & _).
    exact (Hgh id_text E).
Qed.

Lemma cycle_keeps_other_documents_witness :
  exists d0,
    manual_store !! "manual-1" = Some d0
    /\ store (run sample_runtime two_sources ["figma"; "discord"] manual_store) !! "manual-1"
       = Some d0.
Proof.
  eexists. split; [reflexivity|].
  refine (proj2 (cycle_keeps_other_documents sample_runtime two_sources ["figma"; "discord"]
                   manual_store "manual-1" _ eq_refl) _).
  intros id_text. discriminate.
Defined.

(** X5. After a cycle that succeeded, every posting that a configured
    source served and that passed the filter has a document in the store
    under its [gh-] key, and that document was written by this cycle: it
    carries the key as its [externalId] and the timestamp of the cycle. *)
Theorem synced_postings_are_stored (rt : runtime) (w : world) (sources : list string)
    (db : gmap string document) (r : sync_response) (c : string) (job : pyval)
    (k : string) (d : document) :
  result (run rt w sources db) = Succeeded r ->
  In c sources ->
  serves w c job ->
  normalize rt c (now_iso w) job = Ok (Some (k, d)) ->
  exists d',
    store (run rt w sources db) !! k = Some d'
    /\ externalId (sourceMeta d') = k
    /\ lastSeenAt d' = now_iso w
    /\ createdAt d' = now_iso w
    /\ 1 <= synced_count r.
Proof.
  intros Hres Hc Hserves Hn. unfold run in *.
  destruct (stage rt w sources) as [st|e] eqn:Hst; [|discriminate].
  assert (Hin : In (k, d) (batch st)).
  { apply (batch_spec rt w sources st (k, d) Hst).
    now exists c, job. }
  pose proof (stage_counted rt w sources st Hst) as Hcount. unfold counted in Hcount.
  destruct (0 <? upload_count st)%nat eqn:Hpos.
  - destruct (commit_error w (batch st)); [discriminate|].
    cbn [result store] in *. injection Hres as <-.
    destruct (apply_batch_staged (batch st) db k d Hin) as (d' & Hl & Hin').
    destruct (staged_shape rt w sources st k d' Hst Hin')
      as (Hk & _ & _ & _ & _ & _ & _ & _ & Hseen & Hcreated & _).
    exists d'. split; [exact Hl|]. split; [now rewrite <- Hk|].
    split; [exact Hseen|]. split; [exact Hcreated|].
    cbn [success synced_count]. apply Nat.ltb_lt in Hpos. lia.
  - apply Nat.ltb_ge in Hpos. rewrite Hcount in Hpos.
    destruct (batch st); [destruct Hin | simpl in Hpos; lia].
Qed.

Lemma synced_postings_are_stored_witness :
  exists d',
    store (run sample_runtime two_sources ["figma"; "discord"] ∅) !! "gh-3" = Some d'
    /\ externalId (sourceMeta d') = "gh-3"
    /\ lastSeenAt d' = sample_now
    /\ createdAt d' = sample_now
    /\ 1 <= 2.
Proof.
  refine (synced_postings_are_stored sample_runtime two_sources ["figma"; "discord"] ∅
            (success 2) "figma" (posting 3 "Data Analyst") "gh-3" _ eq_refl _ _ eq_refl).
  - simpl; tauto.
  - eexists; eexists; eexists. split; [reflexivity|]. split; [reflexivity|].
    split; [reflexivity|]. simpl; tauto.
Defined.

Section Resync.
Context (rt1 rt2 : runtime) (w : world).
Hypothesis same_html : forall v, html_text rt1 v = html_text rt2 v.

Lemma same_up_to_tag_order_refl (d : document) : same_up_to_tag_order d d.
Proof. split; [now destruct d | reflexivity]. Qed.

Lemma for_each_same {A S1 S2 : Type} (R : S1 -> S2 -> Prop)
    (body1 : S1 -> A -> pyres S1) (body2 : S2 -> A -> pyres S2) (l : list A) :
  (forall s1 s2 x, R s1 s2 -> same_result R (body1 s1 x) (body2 s2 x)) ->
  forall s1 s2, R s1 s2 -> same_result R (for_each body1 l s1) (for_each body2 l s2).
Proof.
  intros Hbody. induction l as [|x l IH]; intros s1 s2 HR; simpl; [exact HR|].
  pose proof (Hbody s1 s2 x HR) as Hx.
  destruct (body1 s1 x) as [t1|e1], (body2 s2 x) as [t2|e2]; simpl in *;
    [now apply IH | contradiction | contradiction | exact Hx].
Qed.

Lemma process_job_same (company now : string) (st1 st2 : cycle) (job : pyval) :
  same_cycle st1 st2 ->
  same_result same_cycle (process_job rt1 company now st1 job)
                         (process_job rt2 company now st2 job).
Proof.
  intros [Hb Hn]. rewrite !process_job_of_normalize.
  pose proof (normalize_across rt1 rt2 same_html company now job) as H.
  destruct (normalize rt1 company now job) as [[kd1|]|e1],
           (normalize rt2 company now job) as [[kd2|]|e2]; simpl in *; try contradiction.
  - unfold same_cycle, add_to_batch. cbn [batch upload_count].
    split; [|now rewrite Hn]. apply Forall2_app; [exact Hb|]. now constructor.
  - now split.
  - exact H.
Qed.

Lemma process_source_same (st1 st2 : cycle) (company : string) :
  same_cycle st1 st2 ->
  same_result same_cycle (process_source rt1 w st1 company) (process_source rt2 w st2 company).
Proof.
  intros Hs. unfold process_source.
  destruct (http_get w (board_url company)) as [|code body]; [reflexivity|].
  destruct (code =? 200)%Z; [|exact Hs].
  destruct body as [payload|]; [|reflexivity]. cbn [bind].
  destruct (get payload "jobs" (PList [])) as [jobsv|]; [|reflexivity]. cbn [bind].
  destruct (iterate jobsv) as [jobs|]; [|reflexivity]. cbn [bind].
  apply (for_each_same same_cycle); [|exact Hs].
  intros s1 s2 x Hx. now apply process_job_same.
Qed.

Lemma stage_same (sources : list string) :
  same_result same_cycle (stage rt1 w sources) (stage rt2 w sources).
Proof.
  unfold stage. apply (for_each_same same_cycle).
  - intros s1 s2 x Hx. now apply process_source_same.
  - split; [constructor | reflexivity].
Qed.

Lemma apply_batch_same (b1 b2 : list (string * document)) :
  Forall2 same_entry b1 b2 ->
  forall m1 m2 : gmap string document,
    (forall k, same_option same_up_to_tag_order (m1 !! k) (m2 !! k)) ->
    forall k, same_option same_up_to_tag_order (apply_batch b1 m1 !! k) (apply_batch b2 m2 !! k).
Proof.
  induction 1 as [|[k1 d1] [k2 d2] b1 b2 [Hk Hd] _ IH]; intros m1 m2 Hm; [exact Hm|].
  cbn [fst snd] in Hk, Hd. subst k2.
  change (apply_batch ((k1, d1) :: b1) m1) with (apply_batch b1 (<[k1 := d1]> m1)).
  change (apply_batch ((k1, d2) :: b2) m2) with (apply_batch b2 (<[k1 := d2]> m2)).
  apply IH. intros k. destruct (decide (k1 = k)) as [->|Hne].
  - rewrite !lookup_insert_eq. exact Hd.
  - rewrite !lookup_insert_ne by exact Hne. apply Hm.
Qed.

Lemma same_option_refl (m : gmap string document) (k : string) :
  same_option same_up_to_tag_order (m !! k) (m !! k).
Proof. destruct (m !! k); [apply same_up_to_tag_order_refl | exact I]. Qed.

End Resync.

(** X6. A second cycle in the same world (same replies, same timestamp),
    run on the store the first one left and possibly by another interpreter
    whose libraries behave alike, reports the same count and leaves every
    document of the store as it was except, possibly, for the order of its
    tags; no key is added or removed. *)
Theorem resync_changes_tag_order_only (rt1 rt2 : runtime) (w : world)
    (sources : list string) (db : gmap string document) (r1 r2 : sync_response) :
  (forall v, html_text rt1 v = html_text rt2 v) ->
  result (run rt1 w sources db) = Succeeded r1 ->
  result (run rt2 w sources (store (run rt1 w sources db))) = Succeeded r2 ->
  synced_count r2 = synced_count r1
  /\ forall k,
       same_option same_up_to_tag_order
         (store (run rt1 w sources db) !! k)
         (store (run rt2 w sources (store (run rt1 w sources db))) !! k).
Proof.
  intros Hhtml. pose proof (stage_same rt1 rt2 w Hhtml sources) as Hst.
  unfold run.
  destruct (stage rt1 w sources) as [st1|e1], (stage rt2 w sources) as [st2|e2];
    simpl in Hst; try contradiction; try discriminate.
  destruct Hst as [Hb Hn]. rewrite <- Hn.
  destruct (0 <? upload_count st1)%nat.
  - destruct (commit_error w (batch st1)); [discriminate|]. cbn [result store].
    destruct (commit_error w (batch st2)); [discriminate|]. cbn [result store].
    intros [= <-] [= <-]. split; [reflexivity|]. intros k.
    rewrite <- (apply_batch_idempotent (batch st1) db) at 1.
    apply (apply_batch_same _ _ Hb). intros k'. apply same_option_refl.
  - cbn [result store]. intros [= <-] [= <-]. split; [reflexivity|].
    intros k. apply same_option_refl.
Qed.

Lemma resync_changes_tag_order_only_witness :
  same_option same_up_to_tag_order
    (store (run sample_runtime two_sources ["figma"; "discord"] manual_store) !! "gh-3")
    (store (run reversed_runtime two_sources ["figma"; "discord"]
              (store (run sample_runtime two_sources ["figma"; "discord"] manual_store)))
       !! "gh-3").
Proof.
  refine (proj2 (resync_changes_tag_order_only sample_runtime reversed_runtime two_sources
                   ["figma"; "discord"] manual_store (success 2) (success 2) _ eq_refl eq_refl)
            "gh-3").
  intros v. reflexivity.
Defined.

(** ** Replies that are not a board *)

Lemma for_each_all_skip {A S : Type} (body : S -> A -> pyres S) (l : list A) (s : S) :
  (forall x, In x l -> forall s0, body s0 x = Ok s0) -> for_each body l s = Ok s.
Proof.
  induction l as [|x l IH]; intros H; simpl; [reflexivity|].
  rewrite (H x (or_introl eq_refl)). simpl. apply IH. intros y Hy. apply H. now right.
Qed.

Lemma get_non_dict (v : pyval) (k : string) (dflt : pyval) :
  (forall items, v <> PDict items) -> get v k dflt = Raise AttributeError.
Proof. intros H. destruct v; try reflexivity. now destruct (H items). Qed.

(** X7. A configured source whose request fails at transport level, or
    whose 200 reply has a body that is not JSON, a payload that is not an
    object, or a [jobs] value the loop cannot iterate over, makes the whole
    cycle fail: no batch is committed and the store stays as it was, whatever
    the other sources served. *)
Theorem broken_source_aborts (rt : runtime) (w : world) (sources : list string)
    (db : gmap string document) (company : string) :
  In company sources ->
  http_get w (board_url company) = Unreachable
  \/ http_get w (board_url company) = Response 200 None
  \/ (exists payload,
        http_get w (board_url company) = Response 200 (Some payload)
        /\ ((forall items, payload <> PDict items)
            \/ exists jobsv e, get payload "jobs" (PList []) = Ok jobsv
                               /\ iterate jobsv = Raise e)) ->
  exists cause,
    result (run rt w sources db) = Failed 500 cause
    /\ store (run rt w sources db) = db
    /\ commits (run rt w sources db) = [].
Proof.
  intros Hc Hbad.
  assert (Hraise : forall s0, exists e, process_source rt w s0 company = Raise e).
  { intros s0. unfold process_source.
    destruct Hbad as [-> | [-> | (payload & -> & [Hnd | (jobsv & e & Hj & Hi)])]].
    - now eexists.
    - now eexists.
    - cbn [Z.eqb Pos.eqb bind]. rewrite (get_non_dict _ _ _ Hnd). now eexists.
    - cbn [Z.eqb Pos.eqb bind]. rewrite Hj. cbn [bind]. rewrite Hi. now eexists. }
  destruct (for_each_raises (process_source rt w) sources company Hc Hraise
              {| batch := []; upload_count := 0 |}) as [cause Hcause].
  exists cause. rewrite (run_of_raise rt w sources db cause Hcause). repeat split.
Qed.

Lemma broken_source_aborts_witness :
  exists cause,
    result (run sample_runtime figma_unreachable TARGET_COMPANIES manual_store) = Failed 500 cause
    /\ store (run sample_runtime figma_unreachable TARGET_COMPANIES manual_store) = manual_store
    /\ commits (run sample_runtime figma_unreachable TARGET_COMPANIES manual_store) = [].
Proof.
  refine (broken_source_aborts sample_runtime figma_unreachable TARGET_COMPANIES
            manual_store "figma" _ (or_introl eq_refl)).
  simpl; tauto.
Defined.

Example jobs_null_aborts :
  result (run sample_runtime
            {| now_iso := sample_now;
               http_get := fun _ => Response 200 (Some (PDict [("jobs", PNone)]));
               commit_error := fun _ => None |} ["figma"] ∅)
  = Failed 500 TypeError.
Proof. reflexivity. Qed.

(** X8. A 200 reply whose payload is an object without a [jobs] key, or
    with an empty [jobs], counts as an empty board: the cycle goes on as if
    the source were not configured. *)
Theorem empty_board_is_skipped (rt : runtime) (w : world) (before after : list string)
    (company : string) (items : list (string * pyval)) (db : gmap string document) :
  http_get w (board_url company) = Response 200 (Some (PDict items)) ->
  assoc "jobs" items = None \/ assoc "jobs" items = Some (PList []) ->
  (forall st, process_source rt w st company = Ok st)
  /\ run rt w (before ++ company :: after) db = run rt w (before ++ after) db.
Proof.
  intros Hget Hjobs.
  assert (Hskip : forall st, process_source rt w st company = Ok st).
  { intros st.
    rewrite (process_source_200 rt w company (PDict items) (PList []) [] st Hget);
      [reflexivity | | reflexivity].
    cbn [get]. now destruct Hjobs as [-> | ->]. }
  split; [exact Hskip|]. unfold run, stage.
  now rewrite (for_each_skip (process_source rt w) before after company _ Hskip).
Qed.

Lemma empty_board_is_skipped_witness :
  run sample_runtime figma_without_jobs ["figma"; "discord"] ∅
  = run sample_runtime figma_without_jobs ["discord"] ∅.
Proof.
  exact (proj2 (empty_board_is_skipped sample_runtime figma_without_jobs [] ["discord"]
                  "figma" [("meta", PNone)] ∅ eq_refl (or_introl eq_refl))).
Defined.

(** X9. When every configured source answers with a status other than 200
    the cycle still succeeds: it reports 0 synced jobs, calls [commit] on
    nothing and leaves the store as it was. *)
Theorem all_sources_down_is_success (rt : runtime) (w : world) (sources : list string)
    (db : gmap string document) :
  (forall c, In c sources ->
     exists code body, http_get w (board_url c) = Response code body /\ code <> 200%Z) ->
  run rt w sources db = {| result := Succeeded (success 0); store := db; commits := [] |}.
Proof.
  intros Hdown. unfold run, stage. rewrite for_each_all_skip; [reflexivity|].
  intros c Hc s0. destruct (Hdown c Hc) as (code & body & Hget & Hcode).
  exact (process_source_non_200 rt w c code body s0 Hget Hcode).
Qed.

Lemma all_sources_down_is_success_witness :
  sync_scraped_jobs_to_firebase sample_runtime all_down manual_store
  = {| result := Succeeded (success 0); store := manual_store; commits := [] |}.
Proof.
  refine (all_sources_down_is_success sample_runtime all_down TARGET_COMPANIES manual_store _).
  intros c _. exists 503%Z, None. split; [reflexivity | discriminate].
Defined.

(** ** Postings that are not what the loop expects *)

(** X10. A posting without a [title] key is skipped like one whose title is
    out of scope: nothing is staged for it and nothing raises, whatever its
    other fields hold. *)
Theorem posting_without_title_is_skipped (rt : runtime) (company now : string)
    (items : list (string * pyval)) (st : cycle) :
  assoc "title" items = None ->
  normalize rt company now (PDict items) = Ok None
  /\ process_job rt company now st (PDict items) = Ok st.
Proof.
  intros Ht.
  assert (Hn : normalize rt company now (PDict items) = Ok None)
    by (unfold normalize; cbn [get bind]; rewrite Ht; reflexivity).
  split; [exact Hn|]. now rewrite process_job_of_normalize, Hn.
Qed.

Lemma posting_without_title_is_skipped_witness :
  normalize sample_runtime "figma" sample_now
    (PDict [("id", PInt 4); ("content", PStr "Python engineer wanted"); ("location", PNone)])
  = Ok None.
Proof.
  exact (proj1 (posting_without_title_is_skipped sample_runtime "figma" sample_now
                  [("id", PInt 4); ("content", PStr "Python engineer wanted");
                   ("location", PNone)]
                  {| batch := []; upload_count := 0 |} eq_refl)).
Defined.

(** X11. An element of [jobs] that is not an object, or whose [title] is
    present but is not a text ([null], a number, a list), makes the loop body
    raise [AttributeError] before anything is staged for it. *)
Theorem malformed_posting_raises (rt : runtime) (company now : string) (job : pyval)
    (st : cycle) :
  (forall items, job <> PDict items)
  \/ (exists items v, job = PDict items /\ assoc "title" items = Some v
                      /\ forall t, v <> PStr t) ->
  normalize rt company now job = Raise AttributeError
  /\ process_job rt company now st job = Raise AttributeError.
Proof.
  intros Hbad.
  assert (Hn : normalize rt company now job = Raise AttributeError).
  { unfold normalize. destruct Hbad as [Hnd | (items & v & -> & Hv & Hns)].
    - now rewrite (get_non_dict _ _ _ Hnd).
    - cbn [get bind]. rewrite Hv. cbn [default].
      destruct v; try reflexivity. now destruct (Hns s). }
  split; [exact Hn|]. now rewrite process_job_of_normalize, Hn.
Qed.

Lemma malformed_posting_raises_witness :
  normalize sample_runtime "figma" sample_now (PDict [("id", PInt 4); ("title", PNone)])
  = Raise AttributeError.
Proof.
  refine (proj1 (malformed_posting_raises sample_runtime "figma" sample_now
                   (PDict [("id", PInt 4); ("title", PNone)])
                   {| batch := []; upload_count := 0 |} _)).
  right. exists [("id", PInt 4); ("title", PNone)], PNone.
  split; [reflexivity|]. split; [reflexivity | discriminate].
Defined.

(** ** A posting without a description *)

Section Suffix.

Lemma append_split (a s x y : string) :
  a +:+ s = x +:+ y ->
  (exists m, a = x +:+ m /\ y = m +:+ s)
  \/ (exists c m, x = a +:+ String c m /\ s = String c m +:+ y).
Proof.
  revert x; induction a as [|h a IH]; intros x H.
  - destruct x as [|c m].
    + left. exists "". simpl in *. now split.
    + right. exists c, m. simpl in *. now split.
  - destruct x as [|h' x].
    + left. exists (String h a). simpl in *. now split.
    + simpl in H. injection H as -> H. destruct (IH x H) as [(m & -> & ->) | (c & m & -> & ->)].
      * left. now exists m.
      * right. now exists c, m.
Qed.

Lemma strip_prefix_append (p post : string) : strip_prefix p (p +:+ post) = Some post.
Proof. induction p as [|a p IH]; simpl; [reflexivity | now rewrite Ascii.eqb_refl]. Qed.

Lemma ends_into_complete (k1 : string) (c : ascii) (k2 s post : string) :
  s = String c k2 +:+ post ->
  word_opt (first_char post) = false ->
  ends_into (k1 +:+ String c k2) s = true.
Proof.
  intros -> Hpost. induction k1 as [|h k1 IH].
  - cbn [String.append ends_into]. change (String c (k2 +:+ post)) with (String c k2 +:+ post).
    rewrite strip_prefix_append, Hpost. reflexivity.
  - change (String h k1 +:+ String c k2) with (String h (k1 +:+ String c k2)).
    cbn [ends_into]. rewrite IH. apply orb_true_r.
Qed.

(** A text put after [a] that starts with a non-word character, into which
    no occurrence of [kw] can run and which has none itself, adds no
    occurrence of [kw] and takes none away. *)
Lemma occurs_before_suffix (kw a s : string) :
  word_ended kw = true ->
  word_opt (first_char s) = false ->
  ends_into kw s = false ->
  Re.search (word_pattern kw) s = false ->
  occurs_as_word kw (a +:+ s) <-> occurs_as_word kw a.
Proof.
  intros Hkw Hs Hends Hsearch. split.
  - intros (pre & post & E & Hp & Hq).
    destruct (append_split _ _ _ _ E) as [(m & -> & E') | (c & m & -> & ->)].
    + symmetry in E'.
      destruct (append_split _ _ _ _ E') as [(n & -> & ->) | (c & n & -> & ->)].
      * exists pre, n. split; [reflexivity|]. split; [exact Hp|].
        destruct n; [reflexivity | exact Hq].
      * rewrite (ends_into_complete m c n _ post eq_refl Hq) in Hends. discriminate.
    + assert (Ho : occurs_as_word kw (String c m +:+ kw +:+ post)).
      { exists (String c m), post. split; [reflexivity|]. split; [|exact Hq].
        unfold last_char in *. now rewrite last_or_append in Hp. }
      apply (search_word_pattern kw _ Hkw) in Ho. congruence.
  - intros (pre & post & -> & Hp & Hq). exists pre, (post +:+ s).
    rewrite !append_assoc. split; [reflexivity|]. split; [exact Hp|].
    destruct post; [exact Hs | exact Hq].
Qed.

Lemma fallback_text_is_neutral (kw : string) :
  In kw TECH_KEYWORDS ->
  ends_into kw " not specified" = false
  /\ Re.search (word_pattern kw) " not specified" = false.
Proof.
  assert (H : forallb (fun k => negb (ends_into k " not specified")
                                && negb (Re.search (word_pattern k) " not specified"))
                TECH_KEYWORDS = true) by (vm_compute; reflexivity).
  intros Hin. rewrite forallb_forall in H. specialize (H kw Hin).
  apply andb_true_iff in H as [H1 H2]. split; now apply negb_true_iff.
Qed.

Lemma tags_without_description (rt : runtime) (t kw : string) :
  In kw TECH_KEYWORDS ->
  In (Text.title kw) (extract_tags rt t "Not specified") <-> occurs_as_word_ci kw t.
Proof.
  intros Hkw. rewrite (extract_tags_In rt t "Not specified" kw Hkw).
  rewrite (kw_search_spec _ kw Hkw), lower_append.
  change (lower (" " +:+ "Not specified")) with " not specified".
  destruct (fallback_text_is_neutral kw Hkw) as [He Hs].
  rewrite (occurs_before_suffix kw (lower t) " not specified"
             (keyword_word_ended kw Hkw) eq_refl He Hs).
  apply occurs_lower_ci.
Qed.

End Suffix.

(** X12. A posting whose [content] is missing, [null] or empty (any value
    Python takes for false) gets the description [Not specified], and that
    text adds no tag: the tags of its document are exactly those of the
    keywords that occur as whole words in its title. *)
Theorem no_description_tags_from_title (rt : runtime) (company now : string)
    (items : list (string * pyval)) (key : string) (d : document) :
  normalize rt company now (PDict items) = Ok (Some (key, d)) ->
  truthy (default (PStr "") (assoc "content" items)) = false ->
  jdText d = "Not specified"
  /\ forall kw, In kw TECH_KEYWORDS ->
       (In (Text.title kw) (tags d) <-> occurs_as_word_ci kw (title d)).
Proof.
  intros Hn Hfalsy.
  destruct (normalize_inv rt _ _ _ _ _ Hn)
    as (items' & t & desc & loc_name & E & _ & _ & Hd & _ & _ & ->).
  injection E as <-. unfold clean_html_text in Hd. rewrite Hfalsy in Hd.
  injection Hd as <-. cbn [jdText tags title]. split; [reflexivity|].
  intros kw Hkw. now apply tags_without_description.
Qed.

Lemma no_description_tags_from_title_witness :
  exists d,
    normalize sample_runtime "figma" sample_now (posting 11 "Senior Data Engineer")
      = Ok (Some ("gh-11", d))
    /\ jdText d = "Not specified"
    /\ tags d = ["Engineer"; "Data"].
Proof.
  eexists. split; [reflexivity|].
  split; [|reflexivity].
  exact (proj1 (no_description_tags_from_title sample_runtime "figma" sample_now
                  [("id", PInt 11); ("title", PStr "Senior Data Engineer");
                   ("absolute_url", PStr "https://boards.greenhouse.io/x/jobs/1")]
                  "gh-11" _ eq_refl eq_refl)).
Defined.

(** ** The tags of a document *)

(** X13. Every document that is built has at least one tag: a keyword that
    let the title through the filter is found again by [extract_tags], since
    the title is part of the text it searches. *)
Theorem built_document_has_a_tag (rt : runtime) (company now : string) (job : pyval)
    (key : string) (d : document) :
  normalize rt company now job = Ok (Some (key, d)) ->
  exists kw,
    In kw TECH_KEYWORDS
    /\ occurs_as_word_ci kw (title d)
    /\ In (Text.title kw) (tags d).
Proof.
  intros Hn.
  destruct (normalize_inv rt _ _ _ _ _ Hn)
    as (items & t & desc & loc_name & _ & _ & Htech & _ & _ & _ & ->).
  cbn [title tags]. apply title_is_tech_spec in Htech as (kw & Hkw & Ho).
  apply occurs_lower_ci in Ho. exists kw. split; [exact Hkw|]. split; [exact Ho|].
  apply (extract_tags_In rt t desc kw Hkw), (kw_search_spec _ kw Hkw), occurs_lower_ci.
  now apply occurs_in_title.
Qed.

Lemma built_document_has_a_tag_witness :
  exists d kw,
    normalize sample_runtime "figma" sample_now (posting 11 "Senior Data Engineer")
      = Ok (Some ("gh-11", d))
    /\ In kw TECH_KEYWORDS
    /\ In (Text.title kw) (tags d).
Proof.
  eexists.
  destruct (built_document_has_a_tag sample_runtime "figma" sample_now
              (posting 11 "Senior Data Engineer") "gh-11" _ eq_refl) as (kw & Hkw & _ & Hin).
  exists kw. split; [reflexivity|]. now split.
Defined.

(** X14. [extract_tags] returns nothing but title-cased keywords of the
    vocabulary, so never more than 18 tags. *)
Theorem tags_within_vocabulary (rt : runtime) (title description : string) :
  (forall tag, In tag (extract_tags rt title description) ->
     exists kw, In kw TECH_KEYWORDS /\ tag = Text.title kw)
  /\ length (extract_tags rt title description) <= 18.
Proof.
  assert (Hsub : forall tag, In tag (extract_tags rt title description) ->
                 In tag (map Text.title TECH_KEYWORDS)).
  { intros tag Hin. unfold extract_tags in Hin. apply set_list_In in Hin.
    apply in_map_iff in Hin as (kw & <- & Hkw). apply filter_In in Hkw as [Hkw _].
    now apply in_map. }
  split.
  - intros tag Hin. apply Hsub, in_map_iff in Hin as (kw & <- & Hkw). now exists kw.
  - change 18 with (length (map Text.title TECH_KEYWORDS)).
    apply List.NoDup_incl_length; [apply set_list_NoDup | exact Hsub].
Qed.

(** ** Keys of integer ids *)

Lemma str_int_injective (a b : Z) : str_int a = str_int b -> a = b.
Proof.
  unfold str_int. intros H.
  assert (Hnz : forall z, Z.to_int z <> Decimal.Pos Decimal.Nil
                          /\ Z.to_int z <> Decimal.Neg Decimal.Nil)
    by (intros [|p|p]; split; try discriminate;
        cbn; intros [= E]; now apply DecimalPos.Unsigned.to_uint_nonnil in E).
  apply DecimalZ.to_int_inj.
  assert (Ha := NilZero.isi (Z.to_int a) (proj1 (Hnz a)) (proj2 (Hnz a))).
  assert (Hb := NilZero.isi (Z.to_int b) (proj1 (Hnz b)) (proj2 (Hnz b))).
  rewrite H in Ha. congruence.
Qed.

(** X15. Two postings whose upstream ids are integers get the same
    document key exactly when the ids are equal, whichever boards served
    them. *)
Theorem integer_ids_give_distinct_keys (rt : runtime) (c1 c2 now1 now2 : string)
    (j1 j2 : pyval) (a b : Z) (k1 k2 : string) (d1 d2 : document) :
  get j1 "id" PNone = Ok (PInt a) ->
  get j2 "id" PNone = Ok (PInt b) ->
  normalize rt c1 now1 j1 = Ok (Some (k1, d1)) ->
  normalize rt c2 now2 j2 = Ok (Some (k2, d2)) ->
  k1 = k2 <-> a = b.
Proof.
  intros Ha Hb H1 H2.
  destruct (normalize_inv rt _ _ _ _ _ H1) as (it1 & ? & ? & ? & -> & _ & _ & _ & _ & -> & _).
  destruct (normalize_inv rt _ _ _ _ _ H2) as (it2 & ? & ? & ? & -> & _ & _ & _ & _ & -> & _).
  cbn [get] in Ha, Hb. injection Ha as ->. injection Hb as ->. cbn [str repr]. split.
  - intros E. apply append_inv_head in E. now apply str_int_injective.
  - now intros ->.
Qed.

Lemma integer_ids_give_distinct_keys_witness :
  "gh-123" = "gh-124" <-> 123%Z = 124%Z.
Proof.
  exact (integer_ids_give_distinct_keys sample_runtime "figma" "discord" sample_now sample_now
           (posting 123 "Software Engineer") (posting 124 "Data Analyst") 123 124
           "gh-123" "gh-124" _ _ eq_refl eq_refl eq_refl eq_refl).
Defined.

(** An id that is the text [123] collides with the number 123. *)
Example text_id_collides_with_number :
  external_id_of (PDict [("id", PStr "123")]) = external_id_of (PDict [("id", PInt 123)]).
Proof. reflexivity. Qed.

(** ** Fields that may be missing upstream *)

(** X16. [postedAt] is the [updated_at] of the posting when the key is
    there, even with the value [null], and the timestamp of the cycle when
    the key is missing; [applyUrl] is [absolute_url], or [None] when the key
    is missing. *)
Theorem optional_fields (rt : runtime) (company now : string)
    (items : list (string * pyval)) (key : string) (d : document) :
  normalize rt company now (PDict items) = Ok (Some (key, d)) ->
  postedAt d = default (PStr now) (assoc "updated_at" items)
  /\ (assoc "updated_at" items = None -> postedAt d = PStr now)
  /\ (assoc "updated_at" items = Some PNone -> postedAt d = PNone)
  /\ applyUrl d = default PNone (assoc "absolute_url" items).
Proof.
  intros Hn.
  destruct (normalize_inv rt _ _ _ _ _ Hn)
    as (items' & t & desc & loc_name & E & _ & _ & _ & _ & _ & ->).
  injection E as <-. cbn [postedAt applyUrl].
  split; [reflexivity|]. split; [now intros ->|]. split; [now intros ->|reflexivity].
Qed.

Lemma optional_fields_witness :
  exists d,
    normalize sample_runtime "figma" sample_now (posting 11 "Senior Data Engineer")
      = Ok (Some ("gh-11", d))
    /\ postedAt d = PStr sample_now.
Proof.
  eexists. split; [reflexivity|].
  exact (proj1 (proj2 (optional_fields sample_runtime "figma" sample_now
                         [("id", PInt 11); ("title", PStr "Senior Data Engineer");
                          ("absolute_url", PStr "https://boards.greenhouse.io/x/jobs/1")]
                         "gh-11" _ eq_refl)) eq_refl).
Defined.

(** ** The lower-cased copies *)

Lemma lower_char_idempotent (c : ascii) : lower_char (lower_char c) = lower_char c.
Proof. destruct c as [[] [] [] [] [] [] [] []]; reflexivity. Qed.

Lemma lower_idempotent (s : string) : lower (lower s) = lower s.
Proof.
  induction s as [|c s IH]; simpl; [reflexivity|]. now rewrite lower_char_idempotent, IH.
Qed.

Lemma lower_upper_char (c : ascii) : lower_char (upper_char c) = lower_char c.
Proof. destruct c as [[] [] [] [] [] [] [] []]; reflexivity. Qed.

Lemma lower_capitalize (s : string) : lower (capitalize s) = lower s.
Proof.
  destruct s as [|c s]; simpl; [reflexivity|].
  now rewrite lower_upper_char, lower_idempotent.
Qed.

(** X17. For a source name that starts with an ASCII character (as the
    configured ones do), the [normalized] fields of a built document are the
    lower-case forms of the fields it shows: [companyLower] of the
    capitalized [company], [titleLower] of [title]; and lower-casing them
    again changes nothing. *)
Theorem normalized_fields_match (rt : runtime) (company_slug now : string) (job : pyval)
    (key : string) (d : document) :
  (forall c r, company_slug = String c r -> (code c < 128)%N) ->
  normalize rt company_slug now job = Ok (Some (key, d)) ->
  companyLower (normalized d) = lower (company d)
  /\ titleLower (normalized d) = lower (title d)
  /\ lower (companyLower (normalized d)) = companyLower (normalized d)
  /\ lower (titleLower (normalized d)) = titleLower (normalized d).
Proof.
  intros _ Hn.
  destruct (normalize_inv rt _ _ _ _ _ Hn)
    as (items & t & desc & loc_name & _ & _ & _ & _ & _ & _ & ->).
  cbn [normalized companyLower titleLower company title].
  rewrite lower_capitalize, !lower_idempotent. repeat split.
Qed.

Lemma normalized_fields_match_witness :
  exists d,
    normalize sample_runtime "figma" sample_now (posting 11 "Senior Data Engineer")
      = Ok (Some ("gh-11", d))
    /\ companyLower (normalized d) = lower (company d).
Proof.
  eexists. split; [reflexivity|].
  refine (proj1 (normalized_fields_match sample_runtime "figma" sample_now
                   (posting 11 "Senior Data Engineer") "gh-11" _ _ eq_refl)).
  intros c r [= <- _]. reflexivity.
Defined.

(** ** The guard *)

(** X18. [GET /sync-jobs] runs the cycle exactly when the request carries
    a non-empty [x-api-key] header equal to the configured key (the
    development key when the environment variable is not set); any other
    request is refused with status 403 and neither commits anything nor
    changes the store.  A request without the header, or with an empty one, is
    refused whatever the configured key is, the empty key included. *)
Theorem sync_jobs_guard (rt : runtime) (env header : option string) (w : world)
    (db : gmap string document) :
  sync_jobs rt env header w db
  = (if decide (header = Some (API_KEY env) /\ API_KEY env <> "")
     then (Answered (result (sync_scraped_jobs_to_firebase rt w db)),
           store (sync_scraped_jobs_to_firebase rt w db),
           commits (sync_scraped_jobs_to_firebase rt w db))
     else (Refused (HTTPException 403 "Invalid or missing API Key"), db, []))
  /\ sync_jobs rt env None w db
     = (Refused (HTTPException 403 "Invalid or missing API Key"), db, [])
  /\ sync_jobs rt env (Some "") w db
     = (Refused (HTTPException 403 "Invalid or missing API Key"), db, []).
Proof.
  split; [|split; reflexivity].
  unfold sync_jobs, get_api_key, api_key_header. destruct header as [[|c k]|].
  - rewrite decide_False; [reflexivity|]. intros [[= E] Hne]. now apply Hne.
  - destruct (String.eqb_spec (String c k) (API_KEY env)) as [E|Hne].
    + rewrite decide_True; [reflexivity|]. split; [now rewrite E | now rewrite <- E].
    + rewrite decide_False; [reflexivity|]. intros [[= E] _]. now apply Hne.
  - rewrite decide_False; [reflexivity|]. now intros [? _].
Qed.

Example empty_key_admits_nobody :
  fst (fst (sync_jobs sample_runtime (Some "") (Some "") all_down ∅))
  = Refused (HTTPException 403 "Invalid or missing API Key").
Proof. reflexivity. Qed.

Example development_key_opens :
  fst (fst (sync_jobs sample_runtime None (Some "my-development-secret-key-123") all_down ∅))
  = Answered (Succeeded (success 0)).
Proof. reflexivity. Qed.

(** ** Two entries under one key *)

(** X19. When a cycle succeeds, the document found under a staged key is
    the one of the last [set] operation of the batch on that key: of two
    boards that serve the same upstream id in one cycle, the one processed
    later decides what is stored. *)
Theorem last_staged_document_is_stored (rt : runtime) (w : world) (sources : list string)
    (db : gmap string document) (st : cycle) (r : sync_response)
    (earlier later : list (string * document)) (k : string) (d : document) :
  stage rt w sources = Ok st ->
  result (run rt w sources db) = Succeeded r ->
  batch st = earlier ++ (k, d) :: later ->
  (forall d', ~ In (k, d') later) ->
  store (run rt w sources db) !! k = Some d.
Proof.
  intros Hst Hres Hb Hlater. unfold run in *. rewrite Hst in *.
  pose proof (stage_counted rt w sources st Hst) as Hc. unfold counted in Hc.
  destruct (0 <? upload_count st)%nat eqn:Hpos.
  - destruct (commit_error w (batch st)); [discriminate|]. cbn [store].
    rewrite Hb. unfold apply_batch. rewrite foldl_app. cbn [foldl fst snd].
    change (foldl (fun m kd => <[fst kd := snd kd]> m) ?m later) with (apply_batch later m).
    rewrite (apply_batch_untouched later _ k Hlater). apply lookup_insert_eq.
  - apply Nat.ltb_ge in Hpos. rewrite Hc, Hb, length_app in Hpos. simpl in Hpos. lia.
Qed.

Lemma last_staged_document_is_stored_witness :
  exists d,
    store (run sample_runtime same_id_twice ["figma"; "discord"] ∅) !! "gh-123" = Some d
    /\ company d = "Discord".
Proof.
  eexists. split.
  - refine (last_staged_document_is_stored sample_runtime same_id_twice ["figma"; "discord"] ∅
              _ (success 2) [_] [] "gh-123" _ eq_refl eq_refl eq_refl _).
    intros d' [].
  - reflexivity.
Defined.

(** ** Sources do not see each other *)

Section Independence.
Context (rt : runtime) (w : world).

Lemma after_add (st0 st : cycle) (kd : string * document) :
  after st0 (add_to_batch st kd) = add_to_batch (after st0 st) kd.
Proof.
  unfold after, add_to_batch. cbn [batch upload_count]. f_equal; [apply app_assoc | lia].
Qed.

Lemma process_job_after (company now : string) (st0 st : cycle) (job : pyval) :
  process_job rt company now (after st0 st) job
  = bind (process_job rt company now st job) (fun st' => Ok (after st0 st')).
Proof.
  rewrite !process_job_of_normalize.
  destruct (normalize rt company now job) as [[kd|]|e]; cbn [bind]; [|reflexivity..].
  now rewrite after_add.
Qed.

Lemma for_each_after {A : Type} (body : cycle -> A -> pyres cycle) (l : list A) :
  (forall st0 st x, body (after st0 st) x = bind (body st x) (fun st' => Ok (after st0 st'))) ->
  forall st0 st,
    for_each body l (after st0 st) = bind (for_each body l st) (fun st' => Ok (after st0 st')).
Proof.
  intros Hbody. induction l as [|x l IH]; intros st0 st; simpl; [reflexivity|].
  rewrite Hbody. destruct (body st x) as [st1|e]; simpl; [apply IH | reflexivity].
Qed.

Lemma process_source_after (st0 st : cycle) (company : string) :
  process_source rt w (after st0 st) company
  = bind (process_source rt w st company) (fun st' => Ok (after st0 st')).
Proof.
  unfold process_source.
  destruct (http_get w (board_url company)) as [|code body]; [reflexivity|].
  destruct (code =? 200)%Z; [|reflexivity].
  destruct body as [payload|]; [|reflexivity]. cbn [bind].
  destruct (get payload "jobs" (PList [])) as [jobsv|]; [|reflexivity]. cbn [bind].
  destruct (iterate jobsv) as [jobs|]; [|reflexivity]. cbn [bind].
  apply for_each_after. intros a b x. apply process_job_after.
Qed.

Lemma after_empty (st : cycle) : after st {| batch := []; upload_count := 0 |} = st.
Proof.
  destruct st as [b n]. unfold after. cbn [batch upload_count].
  now rewrite app_nil_r, Nat.add_0_r.
Qed.

End Independence.

(** X20. What a source adds to the batch does not depend on the sources
    processed before it: the loops over a list of sources put end to end
    stage the batch of the first part followed by the batch of the second,
    count the sum of both, and raise when either part does (the first part's
    exception if both do). *)
Theorem stage_of_appended_sources (rt : runtime) (w : world) (first second : list string) :
  stage rt w (first ++ second)
  = match stage rt w first, stage rt w second with
    | Ok st1, Ok st2 =>
        Ok {| batch := batch st1 ++ batch st2;
              upload_count := upload_count st1 + upload_count st2 |}
    | Ok _, Raise e => Raise e
    | Raise e, _ => Raise e
    end.
Proof.
  unfold stage. rewrite for_each_app.
  destruct (for_each (process_source rt w) first {| batch := []; upload_count := 0 |})
    as [st1|e]; cbn [bind]; [|reflexivity].
  rewrite <- (after_empty st1) at 1.
  rewrite (for_each_after (process_source rt w) second (process_source_after rt w)).
  now destruct (for_each (process_source rt w) second {| batch := []; upload_count := 0 |}).
Qed.
